(** * rx-angular: the [push] template pipe and the actions utility

    A shallow embedding of [libs/template/push/src/lib/push.pipe.ts] (the
    [RxPush] pipe) and of the documented behaviour of [rxActions]
    ([apps/docs/docs/state/actions/actions.mdx]).

    The pipe is a small class over three external collaborators: the RxJS
    operators it composes, the template notifier and the strategy handler of
    [@rx-angular/cdk], and the injected [RxStrategyProvider].  The class is
    embedded as a state record with one transition per method or callback;
    the collaborators appear as the state of the operators the pipe
    instantiates, as the events they deliver to the pipe, and as the log of
    calls the pipe makes to them.  The template notifier, which is not
    among the sources, is given a model of its own as well, written from the
    specification, to state what the pipe returns for the input it is
    given. *)

From stdpp Require Import base list strings pretty gmap.

Set Default Proof Using "Type".
Set Warnings "-register-all".

(* ===================================================================== *)
(** ** JavaScript values *)
(* ===================================================================== *)

(** The values the pipe inspects: the [config] argument of [transform], the
    properties of a [PushInput], render callbacks and rendered values.
    [JRef] stands for an object whose own properties are irrelevant here and
    do not include those of a [PushInput]: an Observable, a Promise, a
    [NextObserver]. *)
Inductive JsValue : Type :=
| JUndefined
| JNull
| JBool (b : bool)
| JNumber (n : Z)
| JString (s : string)
| JRef (id : nat)
| JObject (props : list (string * JsValue)).

(** [x == null]: true of [null] and [undefined] only. *)
Definition is_nullish (v : JsValue) : bool :=
  match v with
  | JUndefined | JNull => true
  | _ => false
  end.

(** The truthiness test of [if (v)] and [v ? a : b]. *)
Definition truthy (v : JsValue) : bool :=
  match v with
  | JUndefined | JNull => false
  | JBool b => b
  | JNumber n => negb (n =? 0)%Z
  | JString s => negb (String.eqb s EmptyString)
  | JRef _ | JObject _ => true
  end.

(** The string a template literal makes of a value, [`${v}`].  An object of
    this model has no [toString] of its own. *)
Definition to_string (v : JsValue) : string :=
  match v with
  | JUndefined => "undefined"
  | JNull => "null"
  | JBool true => "true"
  | JBool false => "false"
  | JNumber n => pretty n
  | JString s => s
  | JRef _ | JObject _ => "[object Object]"
  end.

(** [a === b].  Two [JRef] are the same object when their ids are equal.  A
    [JObject] carries no identity; two of them are taken to be distinct
    objects, as two object literals are. *)
Definition strict_equal (a b : JsValue) : bool :=
  match a, b with
  | JUndefined, JUndefined | JNull, JNull => true
  | JBool x, JBool y => Bool.eqb x y
  | JNumber x, JNumber y => (x =? y)%Z
  | JString x, JString y => String.eqb x y
  | JRef x, JRef y => Nat.eqb x y
  | _, _ => false
  end.

Fixpoint lookup_prop (name : string) (props : list (string * JsValue))
  : option JsValue :=
  match props with
  | [] => None
  | (k, v) :: rest => if String.eqb k name then Some v else lookup_prop name rest
  end.

(** [Object.prototype.hasOwnProperty.call(value, name)].  On [null] and
    [undefined] the real call throws; its only caller tests [value != null]
    first, so those cases are not reached and are given [false]. *)
Definition hasOwnProperty (value : JsValue) (name : string) : bool :=
  match value with
  | JObject props => bool_decide (is_Some (lookup_prop name props))
  | _ => false
  end.

(** [value.name] for the plain objects of this model; a missing property
    reads as [undefined]. *)
Definition get_prop (value : JsValue) (name : string) : JsValue :=
  match value with
  | JObject props => default JUndefined (lookup_prop name props)
  | _ => JUndefined
  end.

(* ===================================================================== *)
(** ** Notifications, strategies and the injected services *)
(* ===================================================================== *)

(** [RxNotificationKind] of [@rx-angular/cdk/notifications]. *)
Inductive RxNotificationKind : Type := Suspense | Next | Error | Complete.

Global Instance RxNotificationKind_eq_dec : EqDecision RxNotificationKind.
Proof. solve_decision. Defined.

(** The two fields of an [RxNotification] the pipe reads. *)
Record RxNotification : Type := mkNotification {
  kind : RxNotificationKind;
  value : JsValue;
}.

(** A render strategy as the pipe sees it: its [name]; its [work] function
    is identified by the strategy. *)
Record RxStrategy : Type := mkStrategy { name : string }.

Record ChangeDetectorRef : Type := mkCdRef { context : JsValue }.

Record NgZone : Type := mkNgZone { zone_id : nat }.

(** The one setting of [strategyProvider.config] the pipe reads. *)
Record RxStrategyProvider : Type := mkProvider { config_patchZone : bool }.

(** The field [patchZone: false | NgZone]; it has no initialiser, so it is
    [undefined] until [setPatchZone] runs. *)
Inductive PatchZone : Type :=
| PatchZoneUnset
| PatchZoneFalse
| PatchZoneOf (zone : NgZone).

(** The options object handed to [strategyProvider.schedule]. *)
Record ScheduleOptions : Type := mkOptions {
  opt_scope : JsValue;
  opt_strategy : string;
  opt_patchZone : PatchZone;
}.

(* ===================================================================== *)
(** ** The module-level helpers of push.pipe.ts *)
(* ===================================================================== *)

(** [onlyValues()] is [filter] with this predicate. *)
Definition onlyValues (n : RxNotification) : bool :=
  bool_decide (kind n = Suspense) || bool_decide (kind n = Next).

Definition isRxComponentInput (value : JsValue) : bool :=
  negb (is_nullish value) &&
  (hasOwnProperty value "strategy" ||
   hasOwnProperty value "renderCallback" ||
   hasOwnProperty value "patchZone").

(* ===================================================================== *)
(** ** The RxJS operators the pipe composes *)
(* ===================================================================== *)

(** Each operator is given by what one value arriving from upstream makes it
    pass downstream, together with the state it keeps between values. *)
Module Rx.

(** What an observer can be sent. *)
Inductive Signal (A : Type) : Type :=
| OnNext (a : A)
| OnComplete.
Arguments OnNext {A} a.
Arguments OnComplete {A}.

(** [filter(p)] *)
Definition filter {A} (p : A → bool) (a : A) : list A :=
  if p a then [a] else [].

(** [skip(count)]; the state is the number of values still to drop. *)
Definition skip {A} (remaining : nat) (a : A) : nat * list A :=
  match remaining with
  | 0 => (0, [a])
  | S k => (k, [])
  end.

(** [withLatestFrom(other$)], given the last value of [other$] if it has
    emitted. *)
Definition withLatestFrom {A B} (latest : option B) (a : A) : list (A * B) :=
  match latest with
  | Some b => [(a, b)]
  | None => []
  end.

(** [shareReplay({ bufferSize: 1, refCount: true })]: the last value seen
    while connected and the number of current subscribers. *)
Record ShareReplay (A : Type) : Type := mkShare {
  buffer : option A;
  refCount : nat;
}.
Arguments mkShare {A} buffer refCount.
Arguments buffer {A} s.
Arguments refCount {A} s.

Definition share_idle {A} : ShareReplay A := mkShare None 0.

(** The source emits [a] while connected. *)
Definition share_next {A} (a : A) (s : ShareReplay A) : ShareReplay A :=
  mkShare (Some a) (refCount s).

(** A new subscriber arrives.  The first one connects the source (the
    flag); a later one is replayed the buffered value. *)
Definition share_subscribe {A} (s : ShareReplay A)
  : ShareReplay A * bool * list A :=
  match refCount s with
  | 0 => (mkShare None 1, true, [])
  | S k => (mkShare (buffer s) (S (S k)), false, option_list (buffer s))
  end.

(** A subscriber leaves.  When the last one leaves the source is
    disconnected (the flag) and the buffer dropped. *)
Definition share_unsubscribe {A} (s : ShareReplay A) : ShareReplay A * bool :=
  match refCount s with
  | 0 => (s, false)
  | 1 => (share_idle, true)
  | S k => (mkShare (buffer s) k, false)
  end.

End Rx.

(* ===================================================================== *)
(** ** The state of a pipe instance and the calls it makes *)
(* ===================================================================== *)

(** The closure
    [() => { strategy.work(this.cdRef, scope); return notification.value; }]
    that [render] hands to [strategyProvider.schedule]. *)
Record ScheduledWork : Type := mkWork {
  work_strategy : RxStrategy;
  work_cdRef : ChangeDetectorRef;
  work_scope : JsValue;
  work_result : JsValue;
}.

(** The calls that leave the pipe, in the order they are made.  [Schedule]
    is a subscription to the Observable returned by
    [strategyProvider.schedule(work, options)], numbered by [id];
    [StrategyWork] is the provider running that closure, that is the call
    [strategy.work(cdRef, scope)]. *)
Inductive Effect : Type :=
| StrategyHandlerNext (v : JsValue)
| TemplateObserverNext (v : JsValue)
| ValuesSubscribe
| ValuesUnsubscribe
| Schedule (id : nat) (work : ScheduledWork) (options : ScheduleOptions)
| ScheduleUnsubscribe (id : nat)
| StrategyWork (id : nat) (strategy : RxStrategy)
    (cdRef : ChangeDetectorRef) (scope : JsValue)
| RenderCallbackNext (callback : JsValue) (v : JsValue).

Record Subscription : Type := mkSubscription { closed : bool }.

(** The subscriber built in [handleChangeDetection] by
    [switchMap(isSync => templateValues$.pipe(skip(..), this.render(scope), tap(..)))]:
    the counter of [skip] and the inner subscription of [render]'s
    [switchMap]. *)
Record RenderChain : Type := mkChain {
  skip_remaining : nat;
  inner : option (nat * ScheduledWork);
}.

Record RxPush : Type := mkRxPush {
  renderedValue : JsValue;
  subscription : option Subscription;
  patchZone : PatchZone;
  _renderCallback : JsValue;
  (** the last strategy emitted by [strategyHandler.strategy$] *)
  strategy_latest : option RxStrategy;
  (** [templateValues$] *)
  templateValues : Rx.ShareReplay RxNotification;
  (** the two subscribers of [templateValues$] made in
      [handleChangeDetection] *)
  setRenderedValue_sub : bool;
  render_sub : option RenderChain;
  (** the number of [schedule] calls made so far *)
  scheduled : nat;
}.

Definition set_renderedValue (v : JsValue) (p : RxPush) : RxPush :=
  mkRxPush v (subscription p) (patchZone p) (_renderCallback p)
    (strategy_latest p) (templateValues p) (setRenderedValue_sub p)
    (render_sub p) (scheduled p).

Definition set_subscription (s : option Subscription) (p : RxPush) : RxPush :=
  mkRxPush (renderedValue p) s (patchZone p) (_renderCallback p)
    (strategy_latest p) (templateValues p) (setRenderedValue_sub p)
    (render_sub p) (scheduled p).

Definition set_patchZone (z : PatchZone) (p : RxPush) : RxPush :=
  mkRxPush (renderedValue p) (subscription p) z (_renderCallback p)
    (strategy_latest p) (templateValues p) (setRenderedValue_sub p)
    (render_sub p) (scheduled p).

Definition set__renderCallback (cb : JsValue) (p : RxPush) : RxPush :=
  mkRxPush (renderedValue p) (subscription p) (patchZone p) cb
    (strategy_latest p) (templateValues p) (setRenderedValue_sub p)
    (render_sub p) (scheduled p).

Definition set_strategy_latest (s : option RxStrategy) (p : RxPush) : RxPush :=
  mkRxPush (renderedValue p) (subscription p) (patchZone p) (_renderCallback p)
    s (templateValues p) (setRenderedValue_sub p)
    (render_sub p) (scheduled p).

Definition set_templateValues (t : Rx.ShareReplay RxNotification) (p : RxPush)
  : RxPush :=
  mkRxPush (renderedValue p) (subscription p) (patchZone p) (_renderCallback p)
    (strategy_latest p) t (setRenderedValue_sub p)
    (render_sub p) (scheduled p).

Definition set_setRenderedValue_sub (b : bool) (p : RxPush) : RxPush :=
  mkRxPush (renderedValue p) (subscription p) (patchZone p) (_renderCallback p)
    (strategy_latest p) (templateValues p) b
    (render_sub p) (scheduled p).

Definition set_render_sub (r : option RenderChain) (p : RxPush) : RxPush :=
  mkRxPush (renderedValue p) (subscription p) (patchZone p) (_renderCallback p)
    (strategy_latest p) (templateValues p) (setRenderedValue_sub p)
    r (scheduled p).

Definition set_scheduled (k : nat) (p : RxPush) : RxPush :=
  mkRxPush (renderedValue p) (subscription p) (patchZone p) (_renderCallback p)
    (strategy_latest p) (templateValues p) (setRenderedValue_sub p)
    (render_sub p) k.

(** *** Methods as state transformers that log their calls *)

Definition M (A : Type) : Type := RxPush → A * RxPush * list Effect.

Definition ret {A} (a : A) : M A := fun p => (a, p, []).

Definition bind {A B} (m : M A) (k : A → M B) : M B :=
  fun p =>
    let '(a, p1, e1) := m p in
    let '(b, p2, e2) := k a p1 in
    (b, p2, e1 ++ e2).

Definition gets {A} (f : RxPush → A) : M A := fun p => (f p, p, []).
Definition modify (f : RxPush → RxPush) : M unit := fun p => (tt, f p, []).
Definition call (e : Effect) : M unit := fun p => (tt, p, [e]).

Notation "'let*' x ':=' m 'in' k" := (bind m (fun x => k))
  (at level 10, x name, m at level 100, k at level 200, only parsing).
Notation "m >> k" := (bind m (fun _ => k))
  (at level 90, right associativity, only parsing).

Fixpoint for_each {A} (l : list A) (f : A → M unit) : M unit :=
  match l with
  | [] => ret tt
  | a :: rest => f a >> for_each rest f
  end.

(* ===================================================================== *)
(** ** Outcomes and logs *)
(* ===================================================================== *)

(** The three components of a method's outcome. *)
Definition result_of {A} (r : A * RxPush * list Effect) : A := r.1.1.
Definition state_of {A} (r : A * RxPush * list Effect) : RxPush := r.1.2.
Definition effects_of {A} (r : A * RxPush * list Effect) : list Effect := r.2.

Definition is_schedule (e : Effect) : bool :=
  match e with Schedule _ _ _ => true | _ => false end.

Definition is_work (e : Effect) : bool :=
  match e with StrategyWork _ _ _ _ => true | _ => false end.

Definition is_values_subscribe (e : Effect) : bool :=
  match e with ValuesSubscribe => true | _ => false end.

Definition is_handler_next (e : Effect) : bool :=
  match e with StrategyHandlerNext _ => true | _ => false end.

(** The calls that do rendering work: scheduling, running the strategy's
    work, notifying the render callback. *)
Definition is_rendering (e : Effect) : bool :=
  match e with
  | Schedule _ _ _ | StrategyWork _ _ _ _ | RenderCallbackNext _ _ => true
  | _ => false
  end.

(** The value carried by the last [Suspense] or [Next] notification of a
    sequence, [d] if there is none. *)
Definition latest_value (d : JsValue) (l : list RxNotification) : JsValue :=
  default d (value <$> last (List.filter onlyValues l)).

(** The same, starting from [undefined]. *)
Definition most_recent_value (l : list RxNotification) : JsValue :=
  latest_value JUndefined l.

(* ===================================================================== *)
(** ** The actions utility *)
(* ===================================================================== *)

Module Actions.

(** Modelled from the spec: the implementation of [rxActions]
    ([@rx-angular/state/actions]) is not among the sources; only its
    documentation, [actions.mdx], is.  The definitions of this module follow
    that text: an action [K] of the declared interface is exposed as a
    dispatcher [K(value)], a stream [K$] and a binder [onK]; a configured
    transform maps the dispatched event before emission; [onK] starts a side
    effect and returns a function that stops it. *)
Inductive Member : Type :=
| Dispatcher (key : string)
| Stream (key : string)
| OnBinder (key : string).

(** Modelled from the spec: the upper-case form of an ASCII letter, for the
    name of the binder ([refresh] gives [onRefresh]). *)
Definition upper (c : Ascii.ascii) : Ascii.ascii :=
  let n := Ascii.nat_of_ascii c in
  if (97 <=? n)%nat && (n <=? 122)%nat then Ascii.ascii_of_nat (n - 32) else c.

(** Modelled from the spec: see [Member]. *)
Definition capitalize (s : string) : string :=
  match s with
  | EmptyString => EmptyString
  | String c rest => String (upper c) rest
  end.

(** Modelled from the spec: the three members one key of the action
    interface is turned into. *)
Definition members_of (key : string) : list (string * Member) :=
  [ (key, Dispatcher key);
    (key +:+ "$", Stream key);
    ("on" +:+ capitalize key, OnBinder key) ].

(** Modelled from the spec: the members of [rxActions<T>()] for the keys of
    [T]. *)
Definition api (keys : list string) : list (string * Member) :=
  flat_map members_of keys.

(** Modelled from the spec: the first argument of [onK], an operator applied
    to the stream of the action.  It is given by what it emits when a value
    arrives, as a function of the values that have arrived so far, the new
    one last. *)
Definition Behaviour : Type := list JsValue → list JsValue.

(** Modelled from the spec: a side effect bound with [onK(behaviour,
    sideEffect)]. *)
Record Binding : Type := mkBinding {
  bound_key : string;
  bound_behaviour : Behaviour;
  received : list JsValue;
  stopped : bool;
}.

(** Modelled from the spec: the state behind the object [rxActions] returns:
    the configured transforms, what each stream has emitted, the side
    effects bound so far (a binding is named by its position), and the log
    of side-effect executions. *)
Record RxActions : Type := mkActions {
  transforms : gmap string (JsValue → JsValue);
  streams : gmap string (list JsValue);
  bindings : list Binding;
  executed : list (nat * JsValue);
}.

(** Modelled from the spec: [rxActions(({ transforms }) => transforms(t))];
    [rxActions()] is the case of no transform. *)
Definition rxActions (t : gmap string (JsValue → JsValue)) : RxActions :=
  mkActions t ∅ [] [].

(** Modelled from the spec: the transform of [key] "transforms the event
    before emission"; without one the value is forwarded as it is. *)
Definition transformed (a : RxActions) (key : string) (v : JsValue) : JsValue :=
  match transforms a !! key with
  | Some f => f v
  | None => v
  end.

(** Modelled from the spec: what [K$] has emitted. *)
Definition stream (a : RxActions) (key : string) : list JsValue :=
  default [] (streams a !! key).

(** Modelled from the spec: the stream of [key] emitting [v] to the binding
    at position [i]; the result lists the side-effect executions. *)
Definition deliver (key : string) (v : JsValue) (i : nat) (b : Binding)
  : Binding * list (nat * JsValue) :=
  if stopped b || negb (String.eqb (bound_key b) key) then (b, [])
  else
    let seen := received b ++ [v] in
    (mkBinding (bound_key b) (bound_behaviour b) seen false,
     map (pair i) (bound_behaviour b seen)).

(** Modelled from the spec: see [deliver]. *)
Fixpoint deliver_all (key : string) (v : JsValue) (i : nat) (bs : list Binding)
  : list Binding * list (nat * JsValue) :=
  match bs with
  | [] => ([], [])
  | b :: rest =>
      let '(b', e) := deliver key v i b in
      let '(rest', es) := deliver_all key v (S i) rest in
      (b' :: rest', e ++ es)
  end.

(** Modelled from the spec: the dispatcher [K(value)]. *)
Definition dispatch (key : string) (v : JsValue) (a : RxActions) : RxActions :=
  let v' := transformed a key v in
  let '(bs, es) := deliver_all key v' 0 (bindings a) in
  mkActions (transforms a) (<[key := stream a key ++ [v']]> (streams a))
    bs (executed a ++ es).

(** Modelled from the spec: the binder [onK(behaviour, sideEffect)]; the
    second component is the cleanup function it returns, named by the
    binding it stops. *)
Definition on (key : string) (behaviour : Behaviour) (a : RxActions)
  : RxActions * nat :=
  (mkActions (transforms a) (streams a)
     (bindings a ++ [mkBinding key behaviour [] false]) (executed a),
   length (bindings a)).

(** Modelled from the spec: see [cleanup]. *)
Definition stop (b : Binding) : Binding :=
  mkBinding (bound_key b) (bound_behaviour b) (received b) true.

(** Modelled from the spec: calling the cleanup function of binding [h]. *)
Definition cleanup (h : nat) (a : RxActions) : RxActions :=
  mkActions (transforms a) (streams a) (alter stop h (bindings a)) (executed a).

(** Modelled from the spec: the uses a program makes of the object. *)
Inductive Op : Type :=
| Dispatch (key : string) (v : JsValue)
| Bind (key : string) (behaviour : Behaviour)
| Cleanup (h : nat).

(** Modelled from the spec: see [Op]. *)
Definition apply (o : Op) (a : RxActions) : RxActions :=
  match o with
  | Dispatch key v => dispatch key v a
  | Bind key behaviour => (on key behaviour a).1
  | Cleanup h => cleanup h a
  end.

(** Modelled from the spec: see [Op]. *)
Definition apply_all (ops : list Op) (a : RxActions) : RxActions :=
  foldl (fun a o => apply o a) a ops.

(** The values dispatched on [key], in order. *)
Definition dispatched (key : string) (ops : list Op) : list JsValue :=
  flat_map (fun o =>
    match o with
    | Dispatch k v => if String.eqb k key then [v] else []
    | _ => []
    end) ops.

(** The executions of the side effect of binding [h], in order. *)
Definition executions (h : nat) (a : RxActions) : list JsValue :=
  flat_map (fun e : nat * JsValue => if Nat.eqb e.1 h then [e.2] else [])
    (executed a).

(** The binding named [h] exists and has been stopped. *)
Definition stopped_at (h : nat) (a : RxActions) : Prop :=
  ∃ b, bindings a !! h = Some b ∧ stopped b = true.

(** The transform of the documentation's [GreetComponent],
    [(v) => `Hello ${v}`]. *)
Definition greet (v : JsValue) : JsValue :=
  JString ("Hello " +:+ to_string v).

End Actions.

(* ===================================================================== *)
(** ** The template notifier *)
(* ===================================================================== *)

(** Modelled from the spec: [createTemplateNotifier] of
    [@rx-angular/cdk/notifications], which makes [templateObserver], is not
    among the sources; the pipe hands it every input with [next] and
    subscribes to its [values$].  The specification says of it that through
    it the pipe renders the values of an Observable or a Promise: the value
    the input emitted last, [undefined] before it has emitted.  The notifier
    is modelled accordingly.  It follows the input handed to it last, and an
    input that is handed to it again is followed on.  What the input it
    follows emits it sends as [Next] notifications.  An input that takes
    over without a value is announced with a [Suspense] notification
    without value once a value has been sent, so that the value of the
    input before it is not taken for its own. *)
Record TemplateNotifier : Type := mkNotifier {
  following : option JsValue;
  emittedValueOnce : bool;
}.

(** Modelled from the spec: the notifier [createTemplateNotifier()]
    returns, which the sources do not contain. *)
Definition notifier_create : TemplateNotifier := mkNotifier None false.

(** Modelled from the spec: whether the notifier, absent from the sources,
    follows this input already. *)
Definition follows (nt : TemplateNotifier) (input : JsValue) : bool :=
  match following nt with
  | Some o => strict_equal o input
  | None => false
  end.

(** Modelled from the spec: [templateObserver.next(input)] of the notifier
    absent from the sources, and what [values$] sends in reaction.
    [initial] are the values the input emits at once when it is subscribed
    to, as a [BehaviorSubject] or [of(..)] do; a Promise emits none. *)
Definition notifier_next (input : JsValue) (initial : list JsValue)
    (nt : TemplateNotifier) : TemplateNotifier * list RxNotification :=
  if follows nt input then (nt, [])
  else
    match initial with
    | [] =>
        (mkNotifier (Some input) (emittedValueOnce nt),
         if emittedValueOnce nt
         then [mkNotification Suspense JUndefined] else [])
    | _ :: _ =>
        (mkNotifier (Some input) true, mkNotification Next <$> initial)
    end.

(** Modelled from the spec: the inputs a [transform] call hands to the
    notifier absent from the sources, one after the other. *)
Fixpoint notifier_feed (handed : list JsValue) (initial : list JsValue)
    (nt : TemplateNotifier) : TemplateNotifier * list RxNotification :=
  match handed with
  | [] => (nt, [])
  | input :: rest =>
      let '(nt1, sent1) := notifier_next input initial nt in
      let '(nt2, sent2) := notifier_feed rest initial nt1 in
      (nt2, sent1 ++ sent2)
  end.

(** Modelled from the spec: an Observable or a Promise emits [v]; the
    notifier absent from the sources passes it on if it follows that
    input. *)
Definition notifier_emits (input v : JsValue) (nt : TemplateNotifier)
  : TemplateNotifier * list RxNotification :=
  if follows nt input
  then (mkNotifier (following nt) true, [mkNotification Next v])
  else (nt, []).

(* ===================================================================== *)
(** ** The class RxPush *)
(* ===================================================================== *)

Section RxPush.

(** The constructor's parameters. *)
Variable strategyProvider : RxStrategyProvider.
Variable cdRef : ChangeDetectorRef.
Variable ngZone : NgZone.

(** [strategyHandling(primaryStrategy, strategies)] of the cdk, as far as
    the pipe depends on it: the strategy that [strategy$] holds when the
    pipe is created, and the one it holds once [next(v)] has returned, given
    the one it held before.  [withLatestFrom(strategy$)] is taken to see the
    strategy held at the time; a strategy arriving later is the event
    [StrategyChange] below. *)
Variable strategy_initial : option RxStrategy.
Variable strategy_after_next : JsValue → option RxStrategy → option RxStrategy.

(** A new instance: no field has an initialiser. *)
Definition create : RxPush :=
  mkRxPush JUndefined None PatchZoneUnset JUndefined
    strategy_initial Rx.share_idle false None 0.

Definition strategyHandler_next (v : JsValue) : M unit :=
  call (StrategyHandlerNext v) >>
  modify (fun p => set_strategy_latest (strategy_after_next v (strategy_latest p)) p).

Definition setPatchZone (patch : JsValue) : M unit :=
  let doPatch :=
    if is_nullish patch then JBool (config_patchZone strategyProvider) else patch in
  modify (set_patchZone (if truthy doPatch then PatchZoneOf ngZone else PatchZoneFalse)).

(** [templateValues$.subscribe(..)]; the result is what the new subscriber
    is sent during the call.  [sync] is what [templateObserver.values$]
    emits synchronously when it is subscribed now, which happens if this
    subscriber is the first. *)
Definition templateValues_subscribe (sync : list RxNotification)
  : M (list RxNotification) :=
  fun p =>
    let '(share, connect, replayed) := Rx.share_subscribe (templateValues p) in
    if connect : bool then
      let values := flat_map (Rx.filter onlyValues) sync in
      (values,
       set_templateValues (foldl (fun s n => Rx.share_next n s) share values) p,
       [ValuesSubscribe])
    else (replayed, set_templateValues share p, []).

Definition templateValues_unsubscribe : M unit :=
  fun p =>
    let '(share, disconnect) := Rx.share_unsubscribe (templateValues p) in
    (tt, set_templateValues share p,
     if disconnect : bool then [ValuesUnsubscribe] else []).

(** The observer [({ value }) => { this.renderedValue = value; }]. *)
Definition setRenderedValue_next (n : RxNotification) : M unit :=
  modify (set_renderedValue (value n)).

(** [switchMap] inside [render] turning to a new inner Observable, the one
    returned by [strategyProvider.schedule(work, options)]. *)
Definition switch_to_schedule (work : ScheduledWork) (options : ScheduleOptions)
  : M unit :=
  let* chain := gets render_sub in
  match chain with
  | None => ret tt
  | Some c =>
      match inner c with
      | Some (previous, _) => call (ScheduleUnsubscribe previous)
      | None => ret tt
      end >>
      let* id := gets scheduled in
      modify (set_scheduled (S id)) >>
      call (Schedule id work options) >>
      modify (set_render_sub (Some (mkChain (skip_remaining c) (Some (id, work)))))
  end.

(** The operator [this.render(scope)] receiving one notification. *)
Definition render (scope : JsValue) (n : RxNotification) : M unit :=
  let* latest := gets strategy_latest in
  for_each (Rx.withLatestFrom latest n) (fun '(notification, strategy) =>
    let* zone := gets patchZone in
    switch_to_schedule
      (mkWork strategy cdRef scope (value notification))
      (mkOptions scope (name strategy) zone)).

(** [tap((v) => { this._renderCallback?.next(v); })] *)
Definition tap_renderCallback (v : JsValue) : M unit :=
  let* cb := gets _renderCallback in
  if is_nullish cb then ret tt else call (RenderCallbackNext cb v).

(** One notification arriving at the subscriber of
    [templateValues$.pipe(skip(isSync ? 1 : 0), this.render(scope), tap(..))]. *)
Definition render_chain_next (scope : JsValue) (n : RxNotification) : M unit :=
  let* chain := gets render_sub in
  match chain with
  | None => ret tt
  | Some c =>
      let '(remaining, passed) := Rx.skip (skip_remaining c) n in
      modify (set_render_sub (Some (mkChain remaining (inner c)))) >>
      for_each passed (render scope)
  end.

(** [hasInitialValue(value$)], with [value$] given by what subscribing to it
    and unsubscribing from it do; the result is what the returned
    Observable sends its subscriber. *)
Definition hasInitialValue {A} (value_subscribe : M (list A))
    (value_unsubscribe : M unit) : M (list (Rx.Signal bool)) :=
  let* received := value_subscribe in
  let hasInitialValue := foldl (fun _ _ => true) false received in
  value_unsubscribe >>
  ret [Rx.OnNext hasInitialValue; Rx.OnComplete].

(** [const setRenderedValue = untracked(() => this.templateValues$.subscribe(..))];
    [untracked] runs its argument and returns the result. *)
Definition setRenderedValue_subscribe (sync : list RxNotification) : M unit :=
  let* received := templateValues_subscribe sync in
  modify (set_setRenderedValue_sub true) >>
  for_each received setRenderedValue_next.

(** The projection of the outer [switchMap] in [const render = ..]:
    subscribing to [templateValues$.pipe(skip(isSync ? 1 : 0), ..)]. *)
Definition render_subscribe (scope : JsValue) (sync : list RxNotification)
    (isSync : bool) : M unit :=
  modify (set_render_sub (Some (mkChain (if isSync then 1 else 0) None))) >>
  let* replayed := templateValues_subscribe sync in
  for_each replayed (render_chain_next scope).

Definition handleChangeDetection (sync : list RxNotification) : M Subscription :=
  let scope := context cdRef in
  setRenderedValue_subscribe sync >>
  let* signals :=
    hasInitialValue (templateValues_subscribe sync) templateValues_unsubscribe in
  for_each signals (fun signal =>
    match signal with
    | Rx.OnNext isSync => render_subscribe scope sync isSync
    | Rx.OnComplete => ret tt
    end) >>
  ret (mkSubscription false).

(** [templateObserver.values$] emits [n]; it reaches the pipe through
    [templateValues$] if that is connected. *)
Definition values_next (n : RxNotification) : M unit :=
  let* share := gets templateValues in
  match Rx.refCount share with
  | 0 => ret tt
  | S _ =>
      for_each (Rx.filter onlyValues n) (fun n =>
        modify (fun p => set_templateValues (Rx.share_next n (templateValues p)) p) >>
        (let* subscribed := gets setRenderedValue_sub in
         if subscribed : bool then setRenderedValue_next n else ret tt) >>
        render_chain_next (context cdRef) n)
  end.

(** [templateObserver.next(potentialObservable)]; [sync] is what
    [values$] emits before the call returns if it has a subscriber. *)
Definition templateObserver_next (potentialObservable : JsValue)
    (sync : list RxNotification) : M unit :=
  call (TemplateObserverNext potentialObservable) >>
  for_each sync values_next.

Definition transform (potentialObservable config renderCallback : JsValue)
    (sync : list RxNotification) : M JsValue :=
  modify (set__renderCallback renderCallback) >>
  (if truthy config then
     if isRxComponentInput config then
       strategyHandler_next (get_prop config "strategy") >>
       modify (set__renderCallback (get_prop config "renderCallback")) >>
       setPatchZone (get_prop config "patchZone")
     else strategyHandler_next config
   else ret tt) >>
  templateObserver_next potentialObservable sync >>
  (let* current := gets subscription in
   match current with
   | None =>
       let* created := handleChangeDetection sync in
       modify (set_subscription (Some created))
   | Some _ => ret tt
   end) >>
  gets renderedValue.

(** [Subscription.unsubscribe()] of the subscription returned by
    [handleChangeDetection], with its two children in the order they were
    added.  The render subscriber tears down in the order its parts were
    added too: first what it was given at subscription, the chain up to
    [templateValues$], then the subscription to scheduled work that
    [switchMap] added later. *)
Definition unsubscribe (sub : Subscription) : M unit :=
  if closed sub then ret tt
  else
    modify (set_subscription (Some (mkSubscription true))) >>
    (let* subscribed := gets setRenderedValue_sub in
     if subscribed : bool
     then modify (set_setRenderedValue_sub false) >> templateValues_unsubscribe
     else ret tt) >>
    (let* chain := gets render_sub in
     match chain with
     | None => ret tt
     | Some c =>
         templateValues_unsubscribe >>
         match inner c with
         | Some (id, _) => call (ScheduleUnsubscribe id)
         | None => ret tt
         end >>
         modify (set_render_sub None)
     end).

Definition ngOnDestroy : M unit :=
  let* current := gets subscription in
  match current with
  | Some sub => unsubscribe sub
  | None => ret tt
  end.

(** The provider runs the work of [schedule] call [id]; the Observable that
    call returned then emits the work's result and completes.  The provider
    is taken to honour the contract of an Observable: work whose
    subscription was dropped, by [switchMap] turning to a newer call or by
    [unsubscribe], is not run, and work runs once. *)
Definition scheduled_run (id : nat) : M unit :=
  let* chain := gets render_sub in
  match chain with
  | Some c =>
      match inner c with
      | Some (current, work) =>
          if Nat.eqb id current then
            call (StrategyWork id (work_strategy work) (work_cdRef work)
                    (work_scope work)) >>
            tap_renderCallback (work_result work) >>
            modify (set_render_sub (Some (mkChain (skip_remaining c) None)))
          else ret tt
      | None => ret tt
      end
  | None => ret tt
  end.

(** *** Executions *)

(** What can happen to a pipe instance: the framework calls [transform] or
    [ngOnDestroy], the template notifier emits, [strategy$] emits a new
    strategy, the provider runs scheduled work. *)
Inductive Event : Type :=
| Transform (potentialObservable config renderCallback : JsValue)
    (sync : list RxNotification)
| Emission (n : RxNotification)
| StrategyChange (s : RxStrategy)
| ScheduledRun (id : nat)
| Destroy.

Definition step (e : Event) : M unit :=
  match e with
  | Transform po config cb sync => transform po config cb sync >> ret tt
  | Emission n => values_next n
  | StrategyChange s => modify (set_strategy_latest (Some s))
  | ScheduledRun id => scheduled_run id
  | Destroy => ngOnDestroy
  end.

Definition run (events : list Event) : M unit := for_each events step.

(** *** Vocabulary of the statements *)

(** [templateValues$] has no subscriber. *)
Definition idle (p : RxPush) : Prop :=
  templateValues p = Rx.share_idle ∧
  setRenderedValue_sub p = false ∧
  render_sub p = None.

(** Both subscribers of [handleChangeDetection] are in place and [skip] has
    nothing left to drop. *)
Definition live (p : RxPush) : Prop :=
  Rx.refCount (templateValues p) = 2 ∧
  setRenderedValue_sub p = true ∧
  ∃ i, render_sub p = Some (mkChain 0 i).

Definition consistent (p : RxPush) : Prop :=
  match subscription p with
  | Some (mkSubscription false) => live p
  | _ => idle p
  end.

(** The two conditional blocks of [transform], named for the statements
    below: [if (config) { .. }] and [if (!this.subscription) { .. }]. *)
Definition configure (config : JsValue) : M unit :=
  if truthy config then
    if isRxComponentInput config then
      strategyHandler_next (get_prop config "strategy") >>
      modify (set__renderCallback (get_prop config "renderCallback")) >>
      setPatchZone (get_prop config "patchZone")
    else strategyHandler_next config
  else ret tt.

Definition subscribe_once (sync : list RxNotification) : M unit :=
  let* current := gets subscription in
  match current with
  | None =>
      let* created := handleChangeDetection sync in
      modify (set_subscription (Some created))
  | Some _ => ret tt
  end.

(** Calls that neither address the strategy handler nor run a strategy's
    work, and that schedule with [patchZone: z] if they schedule. *)
Definition quiet (z : PatchZone) (e : Effect) : Prop :=
  match e with
  | StrategyHandlerNext _ | StrategyWork _ _ _ _ => False
  | Schedule _ _ options => opt_patchZone options = z
  | _ => True
  end.

(** As [quiet], but calls to the strategy handler are allowed. *)
Definition tame (z : PatchZone) (e : Effect) : Prop :=
  match e with
  | StrategyWork _ _ _ _ => False
  | Schedule _ _ options => opt_patchZone options = z
  | _ => True
  end.

(** The configuration of the pipe is [c], [z], [s], and the calls logged are
    [quiet]. *)
Definition settled (c : JsValue) (z : PatchZone) (s : option RxStrategy)
    (p : RxPush) (log : list Effect) : Prop :=
  _renderCallback p = c ∧ patchZone p = z ∧ strategy_latest p = s ∧
  Forall (quiet z) log.

(** The work [render]'s [switchMap] is currently subscribed to was handed to
    [strategyProvider.schedule] in a logged call. *)
Definition inner_scheduled (p : RxPush) (log : list Effect) : Prop :=
  ∀ c id w, render_sub p = Some c → inner c = Some (id, w) →
    work_cdRef w = cdRef ∧
    ∃ o, Schedule id w o ∈ log ∧
         opt_strategy o = name (work_strategy w) ∧
         opt_scope o = work_scope w.

(** *** Vocabulary of the further statements *)

(** The arguments of the calls [strategyHandler.next(..)] in a log. *)
Definition handler_nexts (log : list Effect) : list JsValue :=
  flat_map (fun e => match e with StrategyHandlerNext v => [v] | _ => [] end) log.

(** The arguments of the calls [templateObserver.next(..)] in a log. *)
Definition observer_nexts (log : list Effect) : list JsValue :=
  flat_map (fun e => match e with TemplateObserverNext v => [v] | _ => [] end) log.

(** What a [transform] call with this [config] passes to
    [strategyHandler.next], if it calls it. *)
Definition handler_argument (config : JsValue) : option JsValue :=
  if truthy config
  then Some (if isRxComponentInput config
             then get_prop config "strategy" else config)
  else None.

(** The render callback in force after a [transform] call with these
    second and third arguments. *)
Definition callback_of (config renderCallback : JsValue) : JsValue :=
  if isRxComponentInput config
  then get_prop config "renderCallback" else renderCallback.

(** The [patchZone] field after a [transform] call with this [config], given
    the field before. *)
Definition patch_of (config : JsValue) (before : PatchZone) : PatchZone :=
  if isRxComponentInput config then
    if truthy (if is_nullish (get_prop config "patchZone")
               then JBool (config_patchZone strategyProvider)
               else get_prop config "patchZone")
    then PatchZoneOf ngZone else PatchZoneFalse
  else before.

(** The same over the [transform] calls of a sequence of events. *)
Definition patch_after (events : list Event) (before : PatchZone) : PatchZone :=
  foldl (fun z e =>
           match e with
           | Transform _ config _ _ => patch_of config z
           | _ => z
           end) before events.

Definition handler_calls (events : list Event) : list JsValue :=
  flat_map (fun e =>
              match e with
              | Transform _ config _ _ => option_list (handler_argument config)
              | _ => []
              end) events.

Definition observer_calls (events : list Event) : list JsValue :=
  flat_map (fun e =>
              match e with
              | Transform po _ _ _ => [po]
              | _ => []
              end) events.

Definition is_callback_next (e : Effect) : bool :=
  match e with RenderCallbackNext _ _ => true | _ => false end.

(** [unsubscribe] of the work [render]'s [switchMap] is subscribed to, if
    any. *)
Definition pending_cancel (p : RxPush) : list Effect :=
  match render_sub p with
  | Some c =>
      match inner c with
      | Some (id, _) => [ScheduleUnsubscribe id]
      | None => []
      end
  | None => []
  end.

(** On a subscribed pipe, [renderedValue] is the value buffered by
    [templateValues$]; before the first subscription it is [undefined]. *)
Definition rendered_is_buffered (p : RxPush) : Prop :=
  match subscription p with
  | None => renderedValue p = JUndefined
  | Some (mkSubscription false) =>
      renderedValue p =
      from_option value JUndefined (Rx.buffer (templateValues p))
  | Some (mkSubscription true) => True
  end.

(** A property of the state and of the calls logged so far that a method
    maintains. *)
Definition preserves {A} (J : RxPush → list Effect → Prop) (m : M A) : Prop :=
  ∀ p log, J p log → J (state_of (m p)) (log ++ effects_of (m p)).

(** *** The pipe together with its template notifier *)

(** What can happen to a pipe and the inputs it is given: the framework
    calls [transform] with an input that emits [initial] at once when it is
    subscribed to, an input emits a value, [strategy$] emits a strategy, the
    provider runs scheduled work, the framework calls [ngOnDestroy]. *)
Inductive Happening : Type :=
| Call (potentialObservable config renderCallback : JsValue)
    (initial : list JsValue)
| InputEmits (input v : JsValue)
| StrategyEmits (s : RxStrategy)
| ProviderRuns (id : nat)
| Destroyed.

(** A [transform] call with the notifier in the loop.  The notifier is
    told what the call hands it with [templateObserver.next], which does
    not depend on what the notifier sends; what it sends in reaction
    reaches the pipe in the same call, if [values$] has a subscriber. *)
Definition call_transform (po config cb : JsValue) (initial : list JsValue)
    (st : RxPush * TemplateNotifier) : JsValue * (RxPush * TemplateNotifier) :=
  let handed := observer_nexts (effects_of (transform po config cb [] st.1)) in
  let '(nt, sent) := notifier_feed handed initial st.2 in
  let r := transform po config cb sent st.1 in
  (result_of r, (state_of r, nt)).

Definition happen (st : RxPush * TemplateNotifier) (h : Happening)
  : RxPush * TemplateNotifier :=
  match h with
  | Call po config cb initial => (call_transform po config cb initial st).2
  | InputEmits input v =>
      let '(nt, sent) := notifier_emits input v st.2 in
      (state_of (run (Emission <$> sent) st.1), nt)
  | StrategyEmits s => (state_of (step (StrategyChange s) st.1), st.2)
  | ProviderRuns id => (state_of (step (ScheduledRun id) st.1), st.2)
  | Destroyed => (state_of (step Destroy st.1), st.2)
  end.

Definition happen_all (hs : list Happening) (st : RxPush * TemplateNotifier)
  : RxPush * TemplateNotifier :=
  foldl happen st hs.

(** The input the latest [transform] call was given, and the values that
    input has emitted since it was first passed in the calls that gave it:
    the values it emitted at once when the pipe turned to it, and those it
    emitted afterwards. *)
Definition passed (st : option JsValue * list JsValue) (h : Happening)
  : option JsValue * list JsValue :=
  match h with
  | Call po _ _ initial =>
      match st.1 with
      | Some o => if strict_equal o po then st else (Some po, initial)
      | None => (Some po, initial)
      end
  | InputEmits input v =>
      match st.1 with
      | Some o => if strict_equal o input then (st.1, st.2 ++ [v]) else st
      | None => st
      end
  | _ => st
  end.

Definition emitted_since_passed (hs : list Happening) : list JsValue :=
  (foldl passed (None, []) hs).2.

(** The pipe has not been destroyed, the notifier follows the input of the
    latest call, and the pipe holds the value that input emitted last. *)
Definition in_step (st : RxPush * TemplateNotifier)
    (seen : option JsValue * list JsValue) : Prop :=
  consistent st.1 ∧
  subscription st.1 ≠ Some (mkSubscription true) ∧
  following st.2 = seen.1 ∧
  renderedValue st.1 = default JUndefined (last seen.2) ∧
  (emittedValueOnce st.2 = false → seen.2 = []) ∧
  (subscription st.1 = None → seen.1 = None).

(** *** An example environment *)

(** A provider that patches zones by default and a strategy handler that
    takes a string for the name of the strategy to use and ignores anything
    else: what is needed to run the pipe on concrete inputs. *)
Definition example_provider : RxStrategyProvider := mkProvider true.
Definition example_cdRef : ChangeDetectorRef := mkCdRef (JRef 0).
Definition example_zone : NgZone := mkNgZone 0.
Definition example_normal : RxStrategy := mkStrategy "normal".

Definition example_after_next (v : JsValue) (held : option RxStrategy)
  : option RxStrategy :=
  match v with
  | JString s => Some (mkStrategy s)
  | _ => held
  end.

(** A [Next] notification carrying a number. *)
Definition next_of (n : Z) : RxNotification := mkNotification Next (JNumber n).

(** A first [transform] call on an Observable that has not emitted, with
    neither [config] nor [renderCallback]. *)
Definition first_call : Event := Transform (JRef 1) JUndefined JUndefined [].

(* ===================================================================== *)
(** ** Properties of the pipe *)
(* ===================================================================== *)

(** *** Sequencing *)

Lemma bind_eq {A B} (m : M A) (k : A → M B) p :
  bind m k p =
  (result_of (k (result_of (m p)) (state_of (m p))),
   state_of (k (result_of (m p)) (state_of (m p))),
   effects_of (m p) ++ effects_of (k (result_of (m p)) (state_of (m p)))).
Proof.
  unfold bind, result_of, state_of, effects_of.
  destruct (m p) as [[a p1] e1]; cbn.
  destruct (k a p1) as [[b p2] e2]; reflexivity.
Qed.

Lemma for_each_app {A} (l1 l2 : list A) (f : A → M unit) p :
  for_each (l1 ++ l2) f p = (for_each l1 f >> for_each l2 f) p.
Proof.
  revert p; induction l1 as [|a l1 IH]; intros p; cbn [for_each app].
  - rewrite bind_eq. cbn. destruct (for_each l2 f p) as [[[] p2] e2]; reflexivity.
  - rewrite !bind_eq. cbn [result_of state_of effects_of fst snd].
    rewrite IH, bind_eq. cbn [result_of state_of effects_of fst snd].
    by rewrite app_assoc.
Qed.

Lemma for_each_unchanged {A} (l : list A) (f : A → M unit) p :
  (∀ a, a ∈ l → f a p = (tt, p, [])) → for_each l f p = (tt, p, []).
Proof.
  induction l as [|a l IH]; intros H; cbn [for_each]; [done|].
  rewrite bind_eq, (H a) by set_solver. cbn.
  rewrite IH by (intros; apply H; set_solver). done.
Qed.

(** *** Maintained properties *)

Section Preserves.
Context (J : RxPush → list Effect → Prop).

Lemma preserves_ret {A} (a : A) : preserves J (ret a).
Proof. intros p log H. cbn. by rewrite app_nil_r. Qed.

Lemma preserves_gets {A} (f : RxPush → A) : preserves J (gets f).
Proof. intros p log H. cbn. by rewrite app_nil_r. Qed.

Lemma preserves_bind {A B} (m : M A) (k : A → M B) :
  preserves J m → (∀ a, preserves J (k a)) → preserves J (bind m k).
Proof.
  intros Hm Hk p log H. rewrite bind_eq. cbn [state_of effects_of fst snd].
  rewrite app_assoc. apply Hk, Hm, H.
Qed.

Lemma preserves_modify (f : RxPush → RxPush) :
  (∀ p log, J p log → J (f p) log) → preserves J (modify f).
Proof. intros Hf p log H. cbn. rewrite app_nil_r. by apply Hf. Qed.

Lemma preserves_call (e : Effect) :
  (∀ p log, J p log → J p (log ++ [e])) → preserves J (call e).
Proof. intros He p log H. cbn. by apply He. Qed.

Lemma preserves_for_each {A} (l : list A) (f : A → M unit) :
  (∀ a, preserves J (f a)) → preserves J (for_each l f).
Proof.
  intros Hf. induction l as [|a l IH]; cbn [for_each].
  - apply preserves_ret.
  - apply preserves_bind; [apply Hf | intros _; apply IH].
Qed.

Lemma preserves_unchanged {A} (m : M A) :
  (∀ p log, J p log → ∃ a, m p = (a, p, [])) → preserves J m.
Proof.
  intros Hm p log H. destruct (Hm p log H) as [a ->]. cbn. by rewrite app_nil_r.
Qed.

End Preserves.

(** *** Notifications that are not values *)

Lemma onlyValues_false n :
  kind n = Error ∨ kind n = Complete → onlyValues n = false.
Proof. unfold onlyValues. intros [-> | ->]; reflexivity. Qed.

Lemma values_next_filtered n p :
  onlyValues n = false → values_next n p = (tt, p, []).
Proof.
  intros H. unfold values_next, Rx.filter. rewrite H, bind_eq. cbn.
  by destruct (Rx.refCount (templateValues p)).
Qed.

Lemma values_next_idle n p :
  Rx.refCount (templateValues p) = 0 → values_next n p = (tt, p, []).
Proof. intros H. unfold values_next. rewrite bind_eq. cbn. by rewrite H. Qed.

Lemma for_each_values_next_drop before n after p :
  onlyValues n = false →
  for_each (before ++ n :: after) values_next p =
  for_each (before ++ after) values_next p.
Proof.
  intros H. rewrite !for_each_app, !bind_eq. cbn [for_each].
  rewrite (bind_eq (values_next n)), values_next_filtered by done.
  cbn. by destruct (for_each after values_next _) as [[[] ?] ?].
Qed.

Lemma templateValues_subscribe_drop before n after p :
  onlyValues n = false →
  templateValues_subscribe (before ++ n :: after) p =
  templateValues_subscribe (before ++ after) p.
Proof.
  intros H. unfold templateValues_subscribe.
  rewrite !flat_map_app. cbn [flat_map]. unfold Rx.filter at 2 5.
  by rewrite H.
Qed.

Lemma bind_ext {A B} (m1 m2 : M A) (k1 k2 : A → M B) p :
  (∀ q, m1 q = m2 q) → (∀ a q, k1 a q = k2 a q) → bind m1 k1 p = bind m2 k2 p.
Proof. intros Hm Hk. unfold bind. rewrite Hm. destruct (m2 p) as [[a p1] e1]. by rewrite Hk. Qed.

Lemma for_each_ext {A} (l : list A) (f g : A → M unit) p :
  (∀ a q, f a q = g a q) → for_each l f p = for_each l g p.
Proof.
  intros H. revert p. induction l as [|a l IH]; intros p; cbn [for_each]; [done|].
  apply bind_ext; auto.
Qed.

Lemma handleChangeDetection_drop before n after p :
  onlyValues n = false →
  handleChangeDetection (before ++ n :: after) p =
  handleChangeDetection (before ++ after) p.
Proof.
  intros H. unfold handleChangeDetection, setRenderedValue_subscribe, hasInitialValue.
  repeat (apply bind_ext; intros; try reflexivity);
    try (by apply templateValues_subscribe_drop).
  apply for_each_ext. intros [isSync|] q'; [|done].
  unfold render_subscribe.
  repeat (apply bind_ext; intros; try reflexivity).
  by apply templateValues_subscribe_drop.
Qed.

Lemma transform_drop po config cb before n after p :
  onlyValues n = false →
  transform po config cb (before ++ n :: after) p =
  transform po config cb (before ++ after) p.
Proof.
  intros H. unfold transform, templateObserver_next.
  repeat (apply bind_ext; intros; try reflexivity).
  - by apply for_each_values_next_drop.
  - match goal with |- context [match ?x with Some _ => _ | None => _ end] =>
      destruct x; [done|] end.
    apply bind_ext; intros; [|done]. by apply handleChangeDetection_drop.
Qed.

(** C8.  A notification of kind [Error] or [Complete] emitted by the
    template observer is stopped by [onlyValues] before it reaches either
    subscriber of [templateValues$]: emitted between calls it leaves the
    whole state of the pipe, [renderedValue] included, as it was and causes
    no call at all, so no change-detection pass is scheduled for it; emitted
    during a [transform] call it makes no difference to the outcome of the
    call. *)
Theorem C8_only_values_reach_the_pipe (p : RxPush) (n : RxNotification) :
  kind n = Error ∨ kind n = Complete →
  step (Emission n) p = (tt, p, []) ∧
  ∀ po config cb before after,
    transform po config cb (before ++ n :: after) p =
    transform po config cb (before ++ after) p.
Proof.
  intros H%onlyValues_false. split.
  - by apply values_next_filtered.
  - intros. by apply transform_drop.
Qed.

(** *** The two subscribers at work *)

Lemma flat_map_filter_onlyValues (l : list RxNotification) :
  flat_map (Rx.filter onlyValues) l = List.filter onlyValues l.
Proof.
  induction l as [|n l IH]; cbn; [done|].
  unfold Rx.filter at 1. rewrite IH. by destruct (onlyValues n).
Qed.

Lemma foldl_share_next (values : list RxNotification) b k :
  foldl (λ s n, Rx.share_next n s) (Rx.mkShare b k) values =
  Rx.mkShare (from_option Some b (last values)) k.
Proof.
  revert b. induction values as [|n values IH]; intros b; cbn [foldl]; [done|].
  unfold Rx.share_next at 2. cbn [Rx.refCount]. rewrite IH.
  destruct values as [|n' values]; [done|].
  change (last (n :: n' :: values)) with (last (n' :: values)).
  destruct (last (n' :: values)) eqn:E; [done|]. by apply last_None in E.
Qed.

Lemma for_each_setRenderedValue_next (values : list RxNotification) p :
  for_each values setRenderedValue_next p =
  (tt, from_option (λ n, set_renderedValue (value n) p) p (last values), []).
Proof.
  revert p. induction values as [|n values IH]; intros p; cbn [for_each]; [done|].
  rewrite bind_eq, IH. cbn.
  destruct values as [|n' values]; [done|].
  change (last (n :: n' :: values)) with (last (n' :: values)).
  destruct (last (n' :: values)) eqn:E; [done|]. by apply last_None in E.
Qed.

(** What a [Suspense] or [Next] notification does to a pipe whose
    subscribers are in place. *)
Lemma values_next_live n p :
  live p → onlyValues n = true →
  live (state_of (values_next n p)) ∧
  renderedValue (state_of (values_next n p)) = value n ∧
  subscription (state_of (values_next n p)) = subscription p ∧
  patchZone (state_of (values_next n p)) = patchZone p ∧
  _renderCallback (state_of (values_next n p)) = _renderCallback p ∧
  strategy_latest (state_of (values_next n p)) = strategy_latest p ∧
  List.filter is_schedule (effects_of (values_next n p)) =
    match strategy_latest p with
    | None => []
    | Some s =>
        [Schedule (scheduled p)
           (mkWork s cdRef (context cdRef) (value n))
           (mkOptions (context cdRef) (name s) (patchZone p))]
    end.
Proof.
  destruct p as [rv sub pz cb st [buf rc] vs rs k].
  intros (Hrc & Hvs & i & Hrs) Hn. cbn in Hrc, Hvs, Hrs. subst rc vs rs.
  unfold values_next, Rx.filter. rewrite Hn.
  destruct st as [s|], i as [[id w]|]; cbn; unfold live; cbn; eauto 10.
Qed.

Lemma templateValues_subscribe_first sync p :
  Rx.refCount (templateValues p) = 0 →
  templateValues_subscribe sync p =
  (List.filter onlyValues sync,
   set_templateValues (Rx.mkShare (last (List.filter onlyValues sync)) 1) p,
   [ValuesSubscribe]).
Proof.
  intros H. unfold templateValues_subscribe, Rx.share_subscribe. rewrite H.
  rewrite flat_map_filter_onlyValues, foldl_share_next.
  by destruct (last (List.filter onlyValues sync)).
Qed.

Lemma templateValues_subscribe_later sync p k :
  Rx.refCount (templateValues p) = S k →
  templateValues_subscribe sync p =
  (option_list (Rx.buffer (templateValues p)),
   set_templateValues (Rx.mkShare (Rx.buffer (templateValues p)) (S (S k))) p,
   []).
Proof.
  intros H. unfold templateValues_subscribe, Rx.share_subscribe. by rewrite H.
Qed.

Lemma setRenderedValue_subscribe_idle sync p :
  idle p →
  setRenderedValue_subscribe sync p =
  (tt,
   set_setRenderedValue_sub true
     (set_templateValues (Rx.mkShare (last (List.filter onlyValues sync)) 1)
        (set_renderedValue
           (default (renderedValue p)
              (value <$> last (List.filter onlyValues sync))) p)),
   [ValuesSubscribe]).
Proof.
  destruct p as [rv sub pz cb st tv vs rs k].
  intros (Htv & Hvs & Hrs). cbn in Htv, Hvs, Hrs. subst tv vs rs.
  unfold setRenderedValue_subscribe.
  rewrite bind_eq, templateValues_subscribe_first by done.
  cbn [result_of state_of effects_of fst snd].
  rewrite bind_eq. cbn [modify result_of state_of effects_of fst snd].
  rewrite for_each_setRenderedValue_next.
  by destruct (last (List.filter onlyValues sync)).
Qed.

(** [hasInitialValue] applied to [templateValues$] once [setRenderedValue]
    has subscribed: it reports whether a value is buffered and leaves the
    pipe as it found it. *)
Lemma hasInitialValue_templateValues sync p :
  Rx.refCount (templateValues p) = 1 →
  hasInitialValue (templateValues_subscribe sync) templateValues_unsubscribe p =
  ([Rx.OnNext (bool_decide (is_Some (Rx.buffer (templateValues p))));
    Rx.OnComplete], p, []).
Proof.
  destruct p as [rv sub pz cb st [buf rc] vs rs k]. cbn. intros ->.
  unfold hasInitialValue.
  rewrite bind_eq, (templateValues_subscribe_later _ _ 0) by done.
  by destruct buf.
Qed.

Lemma render_subscribe_replay scope sync isSync p :
  Rx.refCount (templateValues p) = 1 →
  isSync = bool_decide (is_Some (Rx.buffer (templateValues p))) →
  render_subscribe scope sync isSync p =
  (tt,
   set_render_sub (Some (mkChain 0 None))
     (set_templateValues (Rx.mkShare (Rx.buffer (templateValues p)) 2) p),
   []).
Proof.
  destruct p as [rv sub pz cb st [buf rc] vs rs k]. cbn. intros -> ->.
  unfold render_subscribe. by destruct buf.
Qed.

(** The first subscription. *)
Lemma handleChangeDetection_idle sync p :
  idle p →
  handleChangeDetection sync p =
  (mkSubscription false,
   set_render_sub (Some (mkChain 0 None))
     (set_setRenderedValue_sub true
        (set_templateValues (Rx.mkShare (last (List.filter onlyValues sync)) 2)
           (set_renderedValue
              (default (renderedValue p)
                 (value <$> last (List.filter onlyValues sync))) p))),
   [ValuesSubscribe]).
Proof.
  intros Hp. unfold handleChangeDetection.
  rewrite bind_eq, setRenderedValue_subscribe_idle by done.
  cbn [result_of state_of effects_of fst snd].
  rewrite bind_eq, hasInitialValue_templateValues by done.
  cbn [result_of state_of effects_of fst snd for_each].
  rewrite !bind_eq, render_subscribe_replay by done.
  reflexivity.
Qed.

(** *** Methods that leave a property alone *)

Lemma preserves_templateValues_subscribe J sync :
  (∀ p log t, J p log → J (set_templateValues t p) log) →
  (∀ p log, J p log → J p (log ++ [ValuesSubscribe])) →
  preserves J (templateValues_subscribe sync).
Proof.
  intros Ht He p log H. unfold templateValues_subscribe.
  destruct (Rx.share_subscribe (templateValues p)) as [[share [|]] replayed];
    cbn [state_of effects_of fst snd].
  - by apply He, Ht.
  - rewrite app_nil_r. by apply Ht.
Qed.

Lemma preserves_templateValues_unsubscribe J :
  (∀ p log t, J p log → J (set_templateValues t p) log) →
  (∀ p log, J p log → J p (log ++ [ValuesUnsubscribe])) →
  preserves J templateValues_unsubscribe.
Proof.
  intros Ht He p log H. unfold templateValues_unsubscribe.
  destruct (Rx.share_unsubscribe (templateValues p)) as [share [|]];
    cbn [state_of effects_of fst snd].
  - by apply He, Ht.
  - rewrite app_nil_r. by apply Ht.
Qed.

Ltac preserve_step :=
  cbv beta;
  lazymatch goal with
  | |- preserves _ (ret _) => apply preserves_ret
  | |- preserves _ (gets _) => apply preserves_gets
  | |- preserves _ (bind _ _) => apply preserves_bind; [|intros ?]
  | |- preserves _ (for_each _ _) => apply preserves_for_each; intros ?
  | |- preserves _ (modify _) => apply preserves_modify
  | |- preserves _ (call _) => apply preserves_call
  | |- preserves _ (templateValues_subscribe _) =>
      apply preserves_templateValues_subscribe
  | |- preserves _ templateValues_unsubscribe =>
      apply preserves_templateValues_unsubscribe
  | |- preserves _ (match ?x with _ => _ end) => destruct x
  end.

Ltac unfold_methods :=
  unfold step, run, transform, ngOnDestroy, unsubscribe, scheduled_run,
    templateObserver_next, values_next, handleChangeDetection,
    setRenderedValue_subscribe, render_subscribe, hasInitialValue,
    render_chain_next, render, switch_to_schedule, tap_renderCallback,
    setRenderedValue_next, strategyHandler_next, setPatchZone,
    Rx.filter, Rx.skip, Rx.withLatestFrom.

Ltac preserve := unfold_methods; repeat preserve_step.

Lemma preserves_gets_known {A B} J (f : RxPush → A) (a : A) (k : A → M B) :
  (∀ p log, J p log → f p = a) →
  preserves J (k a) → preserves J (bind (gets f) k).
Proof.
  intros Hf Hk p log H. rewrite bind_eq. cbn [gets result_of state_of effects_of fst snd app].
  rewrite (Hf p log H). by apply Hk.
Qed.

Lemma transform_eq po config cb sync :
  transform po config cb sync =
  (modify (set__renderCallback cb) >> configure config >>
   templateObserver_next po sync >> subscribe_once sync >> gets renderedValue).
Proof. reflexivity. Qed.

Lemma settled_log c z s p log e :
  quiet z e → settled c z s p log → settled c z s p (log ++ [e]).
Proof.
  intros He (? & ? & ? & Hlog). repeat split; try done.
  apply Forall_app. split; [done|]. by constructor.
Qed.

Ltac settle :=
  first
    [ by (intros; apply settled_log; [exact I | done])
    | by (intros ? ? H; exact H)
    | by (intros ? ? ? H; exact H) ].

Lemma values_next_settled c z s n : preserves (settled c z s) (values_next n).
Proof.
  unfold_methods.
  repeat first
    [ apply (preserves_gets_known _ patchZone z); [by intros ? ? (? & ? & ?)|]
    | preserve_step ]; try settle.
  intros p log H. by apply settled_log.
Qed.

Ltac preserve_settled z :=
  unfold_methods;
  repeat first
    [ apply (preserves_gets_known _ patchZone z); [by intros ? ? (? & ? & ?)|]
    | preserve_step ];
  try settle;
  try (intros; by apply settled_log).

Lemma templateObserver_next_settled c z s po sync :
  preserves (settled c z s) (templateObserver_next po sync).
Proof.
  unfold templateObserver_next. apply preserves_bind.
  - apply preserves_call. intros. by apply settled_log.
  - intros _. apply preserves_for_each. intros n. apply values_next_settled.
Qed.

Lemma subscribe_once_settled c z s sync :
  preserves (settled c z s) (subscribe_once sync).
Proof. unfold subscribe_once. preserve_settled z. Qed.

Lemma ngOnDestroy_settled c z s : preserves (settled c z s) ngOnDestroy.
Proof. preserve_settled z. Qed.

Lemma quiet_tame z e : quiet z e → tame z e.
Proof. by destruct e. Qed.

(** The first two statements of [transform]. *)
Lemma isRxComponentInput_truthy config :
  isRxComponentInput config = true → truthy config = true.
Proof. by destruct config. Qed.

Lemma configure_input config cb p :
  isRxComponentInput config = true →
  (modify (set__renderCallback cb) >> configure config) p =
  (tt,
   set_patchZone
     (if truthy (if is_nullish (get_prop config "patchZone")
                 then JBool (config_patchZone strategyProvider)
                 else get_prop config "patchZone")
      then PatchZoneOf ngZone else PatchZoneFalse)
     (set__renderCallback (get_prop config "renderCallback")
        (set_strategy_latest
           (strategy_after_next (get_prop config "strategy") (strategy_latest p))
           p)),
   [StrategyHandlerNext (get_prop config "strategy")]).
Proof.
  intros H. unfold configure.
  rewrite (isRxComponentInput_truthy _ H), H. reflexivity.
Qed.

Lemma configure_name config cb p :
  truthy config = true → isRxComponentInput config = false →
  (modify (set__renderCallback cb) >> configure config) p =
  (tt,
   set_strategy_latest (strategy_after_next config (strategy_latest p))
     (set__renderCallback cb p),
   [StrategyHandlerNext config]).
Proof. intros H1 H2. unfold configure. rewrite H1, H2. reflexivity. Qed.

Lemma configure_none config cb p :
  truthy config = false →
  (modify (set__renderCallback cb) >> configure config) p =
  (tt, set__renderCallback cb p, []).
Proof. intros H. unfold configure. rewrite H. reflexivity. Qed.

(** [transform] as its first two statements followed by the rest. *)
Lemma transform_split po config cb sync p :
  let first := (modify (set__renderCallback cb) >> configure config) p in
  let rest :=
    (templateObserver_next po sync >> subscribe_once sync >> gets renderedValue)
      (state_of first) in
  transform po config cb sync p =
  (result_of rest, state_of rest, effects_of first ++ effects_of rest).
Proof.
  cbn zeta. rewrite transform_eq, !bind_eq.
  cbn [modify result_of state_of effects_of fst snd app].
  by rewrite !app_assoc.
Qed.

Lemma transform_rest_settled c z s po sync :
  preserves (settled c z s)
    (templateObserver_next po sync >> subscribe_once sync >> gets renderedValue).
Proof.
  apply preserves_bind; [apply templateObserver_next_settled|intros _].
  apply preserves_bind; [apply subscribe_once_settled|intros _].
  apply preserves_gets.
Qed.

Lemma transform_rest_frame po sync q :
  let r :=
    (templateObserver_next po sync >> subscribe_once sync >> gets renderedValue) q in
  _renderCallback (state_of r) = _renderCallback q ∧
  patchZone (state_of r) = patchZone q ∧
  strategy_latest (state_of r) = strategy_latest q ∧
  Forall (quiet (patchZone q)) (effects_of r).
Proof.
  apply (transform_rest_settled (_renderCallback q) (patchZone q)
           (strategy_latest q) po sync q []).
  by repeat split.
Qed.

Lemma quiet_not_handler_next z l :
  Forall (quiet z) l → Forall (λ e, is_handler_next e = false) l.
Proof. intros H. eapply Forall_impl; [exact H|]. by intros []. Qed.

(** C2.  What [transform] does with its [config] argument.  If [config] is
    not [null] or [undefined] and has an own property [strategy],
    [renderCallback] or [patchZone], the call [strategyHandler.next] is made
    with [config.strategy] (and with nothing else during the call), the
    render callback becomes [config.renderCallback] and the patch zone is
    set from [config.patchZone] with the provider's setting as fallback.
    For any other truthy [config], [strategyHandler.next] is called with
    [config] itself, the render callback is the third argument and the
    patch zone is not touched. *)
Theorem C2_config_selects_strategy po config cb sync (p : RxPush) :
  let r := transform po config cb sync p in
  (is_nullish config = false ∧
   (hasOwnProperty config "strategy" = true ∨
    hasOwnProperty config "renderCallback" = true ∨
    hasOwnProperty config "patchZone" = true) →
   (∃ rest,
      effects_of r = StrategyHandlerNext (get_prop config "strategy") :: rest ∧
      Forall (λ e, is_handler_next e = false) rest) ∧
   strategy_latest (state_of r) =
     strategy_after_next (get_prop config "strategy") (strategy_latest p) ∧
   _renderCallback (state_of r) = get_prop config "renderCallback" ∧
   patchZone (state_of r) =
     (if truthy (if is_nullish (get_prop config "patchZone")
                 then JBool (config_patchZone strategyProvider)
                 else get_prop config "patchZone")
      then PatchZoneOf ngZone else PatchZoneFalse)) ∧
  (truthy config = true ∧ isRxComponentInput config = false →
   (∃ rest,
      effects_of r = StrategyHandlerNext config :: rest ∧
      Forall (λ e, is_handler_next e = false) rest) ∧
   strategy_latest (state_of r) =
     strategy_after_next config (strategy_latest p) ∧
   _renderCallback (state_of r) = cb ∧
   patchZone (state_of r) = patchZone p).
Proof.
  cbn zeta. rewrite transform_split. cbn [state_of effects_of fst snd]. split.
  - intros [Hnull Hown].
    assert (isRxComponentInput config = true) as H.
    { unfold isRxComponentInput. rewrite Hnull. cbn.
      destruct Hown as [-> | [-> | ->]]; by rewrite ?orb_true_r. }
    rewrite (configure_input _ _ _ H). cbn [state_of effects_of fst snd].
    match goal with |- context [state_of (_ ?q)] =>
      destruct (transform_rest_frame po sync q) as (Hc & Hz & Hs & Hq) end.
    rewrite Hc, Hz, Hs. repeat split.
    eexists. split; [reflexivity|]. by eapply quiet_not_handler_next.
  - intros [Ht Hi].
    rewrite (configure_name _ _ _ Ht Hi). cbn [state_of effects_of fst snd].
    match goal with |- context [state_of (_ ?q)] =>
      destruct (transform_rest_frame po sync q) as (Hc & Hz & Hs & Hq) end.
    rewrite Hc, Hz, Hs. repeat split.
    eexists. split; [reflexivity|]. by eapply quiet_not_handler_next.
Qed.

(** *** The calls of one event *)

Lemma configure_effects config cb p :
  Forall (λ e, is_handler_next e = true)
    (effects_of ((modify (set__renderCallback cb) >> configure config) p)).
Proof.
  destruct (truthy config) eqn:Ht.
  - destruct (isRxComponentInput config) eqn:Hi.
    + rewrite configure_input by done. by repeat constructor.
    + rewrite configure_name by done. by repeat constructor.
  - rewrite configure_none by done. constructor.
Qed.

Lemma transform_tame po config cb sync p :
  Forall (tame (patchZone (state_of (transform po config cb sync p))))
    (effects_of (transform po config cb sync p)).
Proof.
  rewrite transform_split. cbn [state_of effects_of fst snd].
  match goal with |- context [state_of (_ ?q)] =>
    destruct (transform_rest_frame po sync q) as (_ & Hz & _ & Hq) end.
  rewrite Hz. apply Forall_app. split.
  - eapply Forall_impl; [apply configure_effects|]. by intros [].
  - eapply Forall_impl; [exact Hq|]. apply quiet_tame.
Qed.

Lemma step_tame e p :
  (∀ id, e ≠ ScheduledRun id) →
  Forall (tame (patchZone (state_of (step e p)))) (effects_of (step e p)).
Proof.
  intros He. destruct e as [po config cb sync|n|s|id|]; cbn [step].
  - rewrite bind_eq. cbn [ret state_of effects_of fst snd].
    rewrite app_nil_r. apply transform_tame.
  - destruct (values_next_settled (_renderCallback p) (patchZone p)
                (strategy_latest p) n p []) as (_ & Hz & _ & Hq);
      [by repeat split|].
    rewrite Hz. eapply Forall_impl; [exact Hq|]. apply quiet_tame.
  - constructor.
  - by destruct (He id).
  - destruct (ngOnDestroy_settled (_renderCallback p) (patchZone p)
                (strategy_latest p) p []) as (_ & Hz & _ & Hq);
      [by repeat split|].
    rewrite Hz. eapply Forall_impl; [exact Hq|]. apply quiet_tame.
Qed.

Lemma scheduled_run_effects id p :
  patchZone (state_of (scheduled_run id p)) = patchZone p ∧
  Forall (λ e, is_schedule e = false) (effects_of (scheduled_run id p)).
Proof.
  destruct p as [rv sub pz cb st tv vs [[k [[current w]|]]|] sched];
    unfold scheduled_run, tap_renderCallback; cbn; try by repeat constructor.
  destruct (id =? current)%nat; [|by repeat constructor].
  rewrite !bind_eq. cbn. destruct (is_nullish cb); by repeat constructor.
Qed.

(** C4.  Zone patching.  A [transform] call whose [config] is a [PushInput]
    sets the pipe's [patchZone] field: if [config.patchZone] is [null] or
    [undefined] the provider's [config.patchZone] decides, otherwise
    [config.patchZone] does, and the field becomes the injected [NgZone]
    when patching is enabled and [false] when it is not.  Whatever event
    makes the pipe call [strategyProvider.schedule], the [patchZone] option
    of the call is the value of the field. *)
Theorem C4_patch_zone_fallback :
  (∀ po config cb sync (p : RxPush),
     isRxComponentInput config = true →
     let z := patchZone (state_of (transform po config cb sync p)) in
     (is_nullish (get_prop config "patchZone") = true →
      z = if config_patchZone strategyProvider
          then PatchZoneOf ngZone else PatchZoneFalse) ∧
     (is_nullish (get_prop config "patchZone") = false →
      z = if truthy (get_prop config "patchZone")
          then PatchZoneOf ngZone else PatchZoneFalse)) ∧
  (∀ (e : Event) (p : RxPush) id work options,
     Schedule id work options ∈ effects_of (step e p) →
     opt_patchZone options = patchZone (state_of (step e p))).
Proof.
  split.
  - intros po config cb sync p H. cbn zeta.
    rewrite transform_split. cbn [state_of effects_of fst snd].
    rewrite (configure_input _ _ _ H). cbn [state_of effects_of fst snd].
    match goal with |- context [state_of (_ ?q)] =>
      destruct (transform_rest_frame po sync q) as (_ & Hz & _ & _) end.
    rewrite Hz. cbn [patchZone set_patchZone]. split; intros ->; reflexivity.
  - intros e p id work options Hin.
    assert (∀ e', (∀ k, e' ≠ ScheduledRun k) →
              Schedule id work options ∈ effects_of (step e' p) →
              opt_patchZone options = patchZone (state_of (step e' p))) as Hstep.
    { intros e' He' Hin'. pose proof (step_tame e' p He') as Ht.
      rewrite Forall_forall in Ht. by specialize (Ht _ Hin'). }
    destruct e as [po config cb sync|n|s|k|]; try by apply Hstep.
    destruct (scheduled_run_effects k p) as [_ Hno].
    rewrite Forall_forall in Hno. by specialize (Hno _ Hin).
Qed.

(** *** Scheduled work *)

Lemma inner_scheduled_log p log e :
  inner_scheduled p log → inner_scheduled p (log ++ [e]).
Proof.
  intros H c id w Hc Hi. destruct (H c id w Hc Hi) as (Hcd & o & Ho & Hs).
  split; [done|]. exists o. split; [|done]. rewrite elem_of_app. by left.
Qed.

Lemma render_chain_next_inner_scheduled scope n :
  preserves inner_scheduled (render_chain_next scope n).
Proof.
  intros p log H.
  destruct p as [rv sub pz cb st tv vs [[k i]|] sched]; [|by cbn; rewrite app_nil_r].
  destruct k as [|k].
  - destruct st as [s|].
    + destruct i as [[previous w']|]; cbn.
      all: intros c id w ? ?; simplify_eq/=.
      all: split; [done|]; exists (mkOptions scope (name s) pz); split; [|done].
      all: rewrite elem_of_app, !elem_of_cons; eauto.
    + cbn. rewrite app_nil_r. intros c id w [= <-] Hi.
      by apply (H (mkChain 0 i) id w).
  - cbn. rewrite app_nil_r. intros c id w [= <-] Hi.
    by apply (H (mkChain (S k) i) id w).
Qed.

Lemma scheduled_run_inner_scheduled id :
  preserves inner_scheduled (scheduled_run id).
Proof.
  intros p log H.
  destruct p as [rv sub pz cb st tv vs [[k [[current w]|]]|] sched];
    try by cbn; rewrite app_nil_r.
  unfold scheduled_run. cbn [gets bind render_sub inner].
  destruct (id =? current)%nat; [|by cbn; rewrite app_nil_r].
  rewrite !bind_eq. cbn. by intros c id' w' [= <-] [=].
Qed.

Ltac preserve_inner_scheduled :=
  unfold step, run, transform, ngOnDestroy, unsubscribe,
    templateObserver_next, values_next, handleChangeDetection,
    setRenderedValue_subscribe, render_subscribe, hasInitialValue,
    setRenderedValue_next, strategyHandler_next, setPatchZone, Rx.filter;
  repeat first
    [ apply render_chain_next_inner_scheduled
    | apply scheduled_run_inner_scheduled
    | preserve_step ];
  try (by intros ? ? H; exact H);
  try (by intros ? ? ? H; exact H);
  try (by intros; apply inner_scheduled_log);
  try (by intros ? ? ? ? ? ? ? ?; simplify_eq/=).

Lemma step_inner_scheduled e : preserves inner_scheduled (step e).
Proof. preserve_inner_scheduled. Qed.

Lemma run_snoc events e p : run (events ++ [e]) p = (run events >> step e) p.
Proof.
  unfold run. rewrite for_each_app. apply bind_ext; [done|].
  intros [] q. cbn [for_each]. rewrite bind_eq. cbn.
  destruct (step e q) as [[[] ?] ?]; cbn. by rewrite app_nil_r.
Qed.

Lemma run_inner_scheduled events : preserves inner_scheduled (run events).
Proof. apply preserves_for_each, step_inner_scheduled. Qed.

Lemma step_no_work e p :
  (∀ id, e ≠ ScheduledRun id) →
  Forall (λ x, is_work x = false) (effects_of (step e p)).
Proof.
  intros He. eapply Forall_impl; [by apply step_tame|]. by intros [].
Qed.

Lemma scheduled_run_work id p e :
  e ∈ effects_of (scheduled_run id p) → is_work e = true →
  ∃ c w, render_sub p = Some c ∧ inner c = Some (id, w) ∧
         e = StrategyWork id (work_strategy w) (work_cdRef w) (work_scope w).
Proof.
  destruct p as [rv sub pz cb st tv vs [[k [[current w]|]]|] sched];
    unfold scheduled_run; cbn; try by intros ?%elem_of_nil.
  destruct (Nat.eqb_spec id current) as [->|]; [|by intros ?%elem_of_nil].
  rewrite !bind_eq. unfold tap_renderCallback. rewrite bind_eq. cbn.
  intros He Hw. exists (mkChain k (Some (current, w))), w.
  repeat split.
  destruct (is_nullish cb); cbn in He;
    repeat (apply elem_of_cons in He as [->|He]; try done);
    by apply elem_of_nil in He.
Qed.

Lemma work_scheduled_before events i id strategy cd scope :
  effects_of (run events create) !! i = Some (StrategyWork id strategy cd scope) →
  ∃ j work options,
    j < i ∧
    effects_of (run events create) !! j = Some (Schedule id work options) ∧
    work_strategy work = strategy ∧ work_cdRef work = cdRef ∧ cd = cdRef ∧
    opt_strategy options = name strategy ∧ opt_scope options = scope.
Proof.
  revert i. induction events as [|e events IH] using rev_ind; intros i Hi.
  { by cbn in Hi. }
  rewrite run_snoc, bind_eq in Hi |- *. cbn [effects_of snd] in Hi |- *.
  fold (effects_of (run events create)) in *.
  fold (state_of (run events create)) in *.
  set (effs := effects_of (run events create)) in *.
  set (q := state_of (run events create)) in *.
  destruct (decide (i < length effs)) as [Hlt|Hge].
  - rewrite lookup_app_l in Hi by done.
    destruct (IH i Hi) as (j & w & o & Hj & Hlook & Hrest).
    exists j, w, o. split; [done|]. split; [|done].
    rewrite lookup_app_l by lia. done.
  - rewrite lookup_app_r in Hi by lia.
    apply list_elem_of_lookup_2 in Hi.
    assert (∃ k, e = ScheduledRun k) as [k ->].
    { destruct e as [? ? ? ?|?|?|k|]; eauto.
      all: exfalso.
      all: match type of Hi with _ ∈ effects_of (step ?e ?q') =>
             pose proof (step_no_work e q') as Hno end.
      all: rewrite Forall_forall in Hno; by specialize (Hno ltac:(done) _ Hi). }
    cbn [step] in Hi.
    destruct (scheduled_run_work _ _ _ Hi eq_refl) as (c & w & Hc & Hin & [= -> -> -> ->]).
    assert (inner_scheduled q effs) as Hinv.
    { apply (run_inner_scheduled events create []). by intros ? ? ? [=]. }
    destruct (Hinv c k w Hc Hin) as (Hcd & o & Ho & Hs & Hscope).
    apply list_elem_of_lookup_1 in Ho as [j Hj].
    exists j, w, o. pose proof (lookup_lt_Some _ _ _ Hj).
    split; [lia|]. split; [by rewrite lookup_app_l|]. done.
Qed.

(** C3.  The pipe does not run change detection itself.  No event other
    than the provider running scheduled work makes a call to a strategy's
    [work] function; and in every execution of a pipe, each such call
    belongs to an earlier call of [strategyProvider.schedule] on the same
    work closure: it runs the strategy named in the options of that call,
    on the pipe's [cdRef] and the scope passed in those options. *)
Theorem C3_work_runs_only_when_scheduled :
  (∀ (e : Event) (p : RxPush),
     (∀ id, e ≠ ScheduledRun id) →
     Forall (λ x, is_work x = false) (effects_of (step e p))) ∧
  (∀ events i id strategy cd scope,
     effects_of (run events create) !! i =
       Some (StrategyWork id strategy cd scope) →
     ∃ j work options,
       j < i ∧
       effects_of (run events create) !! j = Some (Schedule id work options) ∧
       work_strategy work = strategy ∧ work_cdRef work = cdRef ∧ cd = cdRef ∧
       opt_strategy options = name strategy ∧ opt_scope options = scope).
Proof.
  split.
  - apply step_no_work.
  - apply work_scheduled_before.
Qed.

(** *** One event on a consistent pipe *)

Lemma latest_value_app d l1 l2 :
  latest_value d (l1 ++ l2) = latest_value (latest_value d l1) l2.
Proof.
  unfold latest_value. rewrite List.filter_app, last_app.
  by destruct (last (List.filter onlyValues l2)).
Qed.

Lemma latest_value_cons d n l :
  latest_value d (n :: l) =
  latest_value (if onlyValues n then value n else d) l.
Proof.
  change (n :: l) with ([n] ++ l). rewrite latest_value_app.
  unfold latest_value at 2. cbn. by destruct (onlyValues n).
Qed.

Lemma configure_frame config cb p :
  let q := state_of ((modify (set__renderCallback cb) >> configure config) p) in
  renderedValue q = renderedValue p ∧ subscription q = subscription p ∧
  templateValues q = templateValues p ∧
  setRenderedValue_sub q = setRenderedValue_sub p ∧
  render_sub q = render_sub p ∧ scheduled q = scheduled p.
Proof.
  destruct (truthy config) eqn:Ht.
  - destruct (isRxComponentInput config) eqn:Hi.
    + by rewrite configure_input.
    + by rewrite configure_name.
  - by rewrite configure_none.
Qed.

Lemma values_next_no_subscribe n :
  preserves (λ _ log, Forall (λ e, is_values_subscribe e = false) log)
    (values_next n).
Proof.
  preserve; try (by intros ? ? H; exact H).
  all: intros; apply Forall_app; split; [done|]; by repeat constructor.
Qed.

Lemma for_each_values_next_live sync p :
  live p →
  let r := for_each sync values_next p in
  live (state_of r) ∧
  subscription (state_of r) = subscription p ∧
  renderedValue (state_of r) = latest_value (renderedValue p) sync ∧
  Forall (λ e, is_values_subscribe e = false) (effects_of r).
Proof.
  cbn zeta. revert p. induction sync as [|n sync IH]; intros p Hp.
  { cbn. by split_and!. }
  cbn [for_each]. rewrite bind_eq. cbn [state_of effects_of fst snd].
  rewrite latest_value_cons.
  assert (live (state_of (values_next n p)) ∧
          subscription (state_of (values_next n p)) = subscription p ∧
          renderedValue (state_of (values_next n p)) =
            (if onlyValues n then value n else renderedValue p))
    as (Hl & Hs & Hr).
  { destruct (onlyValues n) eqn:Hn.
    - destruct (values_next_live n p Hp Hn) as (? & ? & ? & _). done.
    - by rewrite values_next_filtered. }
  destruct (IH _ Hl) as (Hl' & Hs' & Hr' & He').
  rewrite Hs', Hr', Hs, Hr. split_and!; try done.
  apply Forall_app. split; [|done].
  by apply (values_next_no_subscribe n p []).
Qed.

Lemma for_each_values_next_idle sync p :
  idle p → for_each sync values_next p = (tt, p, []).
Proof.
  intros (Ht & _). apply for_each_unchanged. intros n _.
  apply values_next_idle. by rewrite Ht.
Qed.

Lemma transform_rest_first po sync q :
  subscription q = None → idle q →
  (templateObserver_next po sync >> subscribe_once sync >> gets renderedValue) q =
  (latest_value (renderedValue q) sync,
   set_subscription (Some (mkSubscription false))
     (set_render_sub (Some (mkChain 0 None))
        (set_setRenderedValue_sub true
           (set_templateValues
              (Rx.mkShare (last (List.filter onlyValues sync)) 2)
              (set_renderedValue (latest_value (renderedValue q) sync) q)))),
   [TemplateObserverNext po; ValuesSubscribe]).
Proof.
  intros Hs Hq. unfold templateObserver_next, subscribe_once.
  rewrite !bind_eq. cbn [call result_of state_of effects_of fst snd].
  rewrite for_each_values_next_idle by done.
  cbn [gets result_of state_of effects_of fst snd]. rewrite Hs.
  rewrite bind_eq, handleChangeDetection_idle by done. reflexivity.
Qed.

Lemma transform_rest_closed po sync q s :
  subscription q = Some s → idle q →
  (templateObserver_next po sync >> subscribe_once sync >> gets renderedValue) q =
  (renderedValue q, q, [TemplateObserverNext po]).
Proof.
  intros Hs Hq. unfold templateObserver_next, subscribe_once.
  rewrite !bind_eq. cbn [call result_of state_of effects_of fst snd].
  rewrite for_each_values_next_idle by done.
  cbn [gets result_of state_of effects_of fst snd]. rewrite Hs. reflexivity.
Qed.

Lemma transform_rest_live po sync q s :
  subscription q = Some s → live q →
  let r :=
    (templateObserver_next po sync >> subscribe_once sync >> gets renderedValue) q in
  result_of r = renderedValue (state_of r) ∧
  live (state_of r) ∧
  subscription (state_of r) = Some s ∧
  renderedValue (state_of r) = latest_value (renderedValue q) sync ∧
  Forall (λ e, is_values_subscribe e = false) (effects_of r).
Proof.
  intros Hs Hq. cbn zeta. unfold templateObserver_next, subscribe_once.
  rewrite !bind_eq. cbn [call result_of state_of effects_of fst snd].
  destruct (for_each_values_next_live sync q Hq) as (Hl & Hs' & Hr & He).
  cbn [gets result_of state_of effects_of fst snd]. rewrite Hs', Hs.
  cbn [ret gets result_of state_of effects_of fst snd app]. rewrite !app_nil_r.
  split_and!; try done; [congruence|by constructor].
Qed.

Lemma consistent_cases p :
  consistent p →
  subscription p = None ∧ idle p ∨
  subscription p = Some (mkSubscription false) ∧ live p ∨
  subscription p = Some (mkSubscription true) ∧ idle p.
Proof. unfold consistent. destruct (subscription p) as [[[|]]|]; eauto. Qed.

Lemma idle_frame p q :
  templateValues q = templateValues p →
  setRenderedValue_sub q = setRenderedValue_sub p →
  render_sub q = render_sub p → idle p → idle q.
Proof. unfold idle. by intros -> -> ->. Qed.

Lemma live_frame p q :
  templateValues q = templateValues p →
  setRenderedValue_sub q = setRenderedValue_sub p →
  render_sub q = render_sub p → live p → live q.
Proof. unfold live. by intros -> -> ->. Qed.

(** A [transform] call on a pipe that has not subscribed yet. *)
Lemma transform_first po config cb sync p :
  subscription p = None → idle p →
  let r := transform po config cb sync p in
  result_of r = latest_value (renderedValue p) sync ∧
  renderedValue (state_of r) = latest_value (renderedValue p) sync ∧
  subscription (state_of r) = Some (mkSubscription false) ∧
  live (state_of r) ∧
  Rx.buffer (templateValues (state_of r)) = last (List.filter onlyValues sync) ∧
  render_sub (state_of r) = Some (mkChain 0 None) ∧
  List.filter is_values_subscribe (effects_of r) = [ValuesSubscribe] ∧
  Forall (λ e, is_rendering e = false) (effects_of r).
Proof.
  intros Hs Hp. cbn zeta. rewrite transform_split.
  destruct (configure_frame config cb p) as (Hr & Hs' & Ht & Hv & Hc & _).
  pose proof (configure_effects config cb p) as He.
  set (q := state_of _) in *. set (e := effects_of _) in *.
  rewrite transform_rest_first; [|congruence|by eapply idle_frame].
  cbn [result_of state_of effects_of fst snd]. rewrite Hr.
  split_and!; try done.
  - unfold live. cbn. eauto.
  - rewrite List.filter_app. cbn.
    replace (List.filter is_values_subscribe e) with (@nil Effect); [done|].
    symmetry. clear -He. induction He as [|x l Hx _ IH]; [done|].
    cbn. destruct x; try done.
  - apply Forall_app. split; [|by repeat constructor].
    eapply Forall_impl; [exact He|]. by intros [].
Qed.

(** A [transform] call on a pipe whose subscribers are in place. *)
Lemma transform_live po config cb sync p :
  subscription p = Some (mkSubscription false) → live p →
  let r := transform po config cb sync p in
  result_of r = latest_value (renderedValue p) sync ∧
  renderedValue (state_of r) = latest_value (renderedValue p) sync ∧
  subscription (state_of r) = Some (mkSubscription false) ∧
  live (state_of r) ∧
  Forall (λ e, is_values_subscribe e = false) (effects_of r).
Proof.
  intros Hs Hp. cbn zeta. rewrite transform_split.
  destruct (configure_frame config cb p) as (Hr & Hs' & Ht & Hv & Hc & _).
  pose proof (configure_effects config cb p) as He.
  set (q := state_of _) in *. set (e := effects_of _) in *.
  destruct (transform_rest_live po sync q (mkSubscription false))
    as (H1 & H2 & H3 & H4 & H5); [congruence|by eapply live_frame|].
  cbn [result_of state_of effects_of fst snd].
  rewrite H1, H4, Hr. split_and!; try done.
  apply Forall_app. split; [|done].
  eapply Forall_impl; [exact He|]. by intros [].
Qed.

(** A [transform] call on a destroyed pipe. *)
Lemma transform_closed po config cb sync p :
  subscription p = Some (mkSubscription true) → idle p →
  let r := transform po config cb sync p in
  result_of r = renderedValue p ∧
  renderedValue (state_of r) = renderedValue p ∧
  subscription (state_of r) = Some (mkSubscription true) ∧
  idle (state_of r) ∧
  Forall (λ e, is_values_subscribe e = false ∧ is_rendering e = false)
    (effects_of r).
Proof.
  intros Hs Hp. cbn zeta. rewrite transform_split.
  destruct (configure_frame config cb p) as (Hr & Hs' & Ht & Hv & Hc & _).
  pose proof (configure_effects config cb p) as He.
  set (q := state_of _) in *. set (e := effects_of _) in *.
  rewrite (transform_rest_closed po sync q (mkSubscription true));
    [|congruence|by eapply idle_frame].
  cbn [result_of state_of effects_of fst snd].
  split_and!; try done; [congruence|by eapply idle_frame|].
  apply Forall_app. split; [|by repeat constructor].
  eapply Forall_impl; [exact He|]. by intros [].
Qed.

Lemma scheduled_run_idle id p :
  render_sub p = None → scheduled_run id p = (tt, p, []).
Proof. intros H. unfold scheduled_run. rewrite bind_eq. cbn. by rewrite H. Qed.

Lemma ngOnDestroy_idle p :
  subscription p ≠ Some (mkSubscription false) → ngOnDestroy p = (tt, p, []).
Proof.
  intros H. unfold ngOnDestroy. rewrite bind_eq. cbn.
  by destruct (subscription p) as [[[|]]|].
Qed.

(** An event other than a [transform] call on a pipe without subscribers. *)
Lemma step_idle e p :
  idle p → subscription p ≠ Some (mkSubscription false) →
  match e with
  | Transform _ _ _ _ => True
  | StrategyChange s => step e p = (tt, set_strategy_latest (Some s) p, [])
  | _ => step e p = (tt, p, [])
  end.
Proof.
  intros (Ht & Hv & Hr) Hs. destruct e as [? ? ? ?|n|s|id|]; cbn [step]; try done.
  - apply values_next_idle. by rewrite Ht.
  - by apply scheduled_run_idle.
  - by apply ngOnDestroy_idle.
Qed.

(** An event other than a [transform] call on a pipe whose subscribers are
    in place. *)
Lemma step_live e p :
  subscription p = Some (mkSubscription false) → live p →
  let r := step e p in
  match e with
  | Transform _ _ _ _ => True
  | Emission n =>
      subscription (state_of r) = subscription p ∧ live (state_of r) ∧
      renderedValue (state_of r) =
        (if onlyValues n then value n else renderedValue p)
  | Destroy =>
      subscription (state_of r) = Some (mkSubscription true) ∧
      idle (state_of r) ∧ renderedValue (state_of r) = renderedValue p
  | _ =>
      subscription (state_of r) = subscription p ∧ live (state_of r) ∧
      renderedValue (state_of r) = renderedValue p
  end ∧
  (match e with
   | Transform _ _ _ _ => True
   | _ => Forall (λ x, is_values_subscribe x = false) (effects_of r)
   end).
Proof.
  intros Hs Hp. cbn zeta.
  destruct e as [? ? ? ?|n|s|id|]; cbn [step]; try done.
  - split; [|by apply (values_next_no_subscribe n p [])].
    destruct (onlyValues n) eqn:Hn.
    + by destruct (values_next_live n p Hp Hn) as (? & ? & ? & _).
    + rewrite values_next_filtered by done. by cbn.
  - destruct p as [rv sub pz cb st [buf rc] vs rs k].
    destruct Hp as (Hrc & Hvs & i & Hrs). cbn in Hs, Hrc, Hvs, Hrs. subst.
    unfold scheduled_run, tap_renderCallback.
    destruct i as [[current w]|]; cbn; [|by split_and!; unfold live; eauto].
    destruct (id =? current)%nat; [|by split_and!; unfold live; cbn; eauto].
    rewrite !bind_eq. cbn.
    destruct (is_nullish cb); cbn; split_and!; unfold live; cbn; eauto;
      by repeat constructor.
  - destruct p as [rv sub pz cb st [buf rc] vs rs k].
    destruct Hp as (Hrc & Hvs & i & Hrs). cbn in Hs, Hrc, Hvs, Hrs. subst.
    destruct i as [[current w]|]; cbn; by split_and!; repeat constructor.
Qed.

Lemma step_consistent e p : consistent p → consistent (state_of (step e p)).
Proof.
  intros Hp.
  destruct (consistent_cases p Hp) as [[Hs Hi]|[[Hs Hl]|[Hs Hi]]].
  - destruct e as [po config cb sync|n|s|id|].
    + cbn [step]. rewrite bind_eq. cbn [ret state_of fst snd].
      destruct (transform_first po config cb sync p Hs Hi)
        as (_ & _ & Hs' & Hl' & _).
      unfold consistent. by rewrite Hs'.
    + by rewrite (step_idle (Emission n) p Hi) by congruence.
    + by rewrite (step_idle (StrategyChange s) p Hi) by congruence.
    + by rewrite (step_idle (ScheduledRun id) p Hi) by congruence.
    + by rewrite (step_idle Destroy p Hi) by congruence.
  - destruct e as [po config cb sync|n|s|id|].
    + cbn [step]. rewrite bind_eq. cbn [ret state_of fst snd].
      destruct (transform_live po config cb sync p Hs Hl)
        as (_ & _ & Hs' & Hl' & _).
      unfold consistent. by rewrite Hs'.
    + destruct (step_live (Emission n) p Hs Hl) as ((Hs' & Hl' & _) & _).
      unfold consistent. by rewrite Hs', Hs.
    + destruct (step_live (StrategyChange s) p Hs Hl) as ((Hs' & Hl' & _) & _).
      unfold consistent. by rewrite Hs', Hs.
    + destruct (step_live (ScheduledRun id) p Hs Hl) as ((Hs' & Hl' & _) & _).
      unfold consistent. by rewrite Hs', Hs.
    + destruct (step_live Destroy p Hs Hl) as ((Hs' & Hl' & _) & _).
      unfold consistent. by rewrite Hs'.
  - destruct e as [po config cb sync|n|s|id|].
    + cbn [step]. rewrite bind_eq. cbn [ret state_of fst snd].
      destruct (transform_closed po config cb sync p Hs Hi)
        as (_ & _ & Hs' & Hl' & _).
      unfold consistent. by rewrite Hs'.
    + by rewrite (step_idle (Emission n) p Hi) by congruence.
    + by rewrite (step_idle (StrategyChange s) p Hi) by congruence.
    + by rewrite (step_idle (ScheduledRun id) p Hi) by congruence.
    + by rewrite (step_idle Destroy p Hi) by congruence.
Qed.

Lemma run_cons e events p :
  run (e :: events) p =
  (tt, state_of (run events (state_of (step e p))),
   effects_of (step e p) ++ effects_of (run events (state_of (step e p)))).
Proof.
  unfold run. cbn [for_each]. rewrite bind_eq.
  by destruct (for_each events step _) as [[[] ?] ?].
Qed.

Lemma run_consistent events p :
  consistent p → consistent (state_of (run events p)).
Proof.
  revert p. induction events as [|e events IH]; intros p Hp; [done|].
  rewrite run_cons. cbn [state_of fst snd]. by apply IH, step_consistent.
Qed.

Lemma create_consistent : consistent create.
Proof. by cbn. Qed.

(** *** The subscription *)

Lemma filter_values_subscribe_nil l :
  Forall (λ e, is_values_subscribe e = false) l →
  List.filter is_values_subscribe l = [].
Proof.
  induction 1 as [|e l He _ IH]; [done|]. cbn. by rewrite He.
Qed.

Lemma step_values_subscribe e p :
  consistent p →
  match subscription p, e with
  | None, Transform _ _ _ _ =>
      List.filter is_values_subscribe (effects_of (step e p)) = [ValuesSubscribe] ∧
      subscription (state_of (step e p)) = Some (mkSubscription false)
  | None, _ =>
      List.filter is_values_subscribe (effects_of (step e p)) = [] ∧
      subscription (state_of (step e p)) = None
  | Some _, _ =>
      List.filter is_values_subscribe (effects_of (step e p)) = [] ∧
      is_Some (subscription (state_of (step e p)))
  end.
Proof.
  intros Hp.
  destruct (consistent_cases p Hp) as [[Hs Hi]|[[Hs Hl]|[Hs Hi]]]; rewrite Hs.
  - destruct e as [po config cb sync|n|s|id|].
    + cbn [step]. rewrite bind_eq. cbn [ret state_of effects_of fst snd].
      rewrite app_nil_r.
      by destruct (transform_first po config cb sync p Hs Hi)
        as (_ & _ & ? & _ & _ & _ & ? & _).
    + by rewrite (step_idle (Emission n) p Hi) by congruence.
    + by rewrite (step_idle (StrategyChange s) p Hi) by congruence.
    + by rewrite (step_idle (ScheduledRun id) p Hi) by congruence.
    + by rewrite (step_idle Destroy p Hi) by congruence.
  - destruct e as [po config cb sync|n|s|id|].
    + cbn [step]. rewrite bind_eq. cbn [ret state_of effects_of fst snd].
      rewrite app_nil_r.
      destruct (transform_live po config cb sync p Hs Hl)
        as (_ & _ & -> & _ & He).
      split; [by apply filter_values_subscribe_nil|eauto].
    + destruct (step_live (Emission n) p Hs Hl) as ((-> & _) & He).
      rewrite Hs. split; [by apply filter_values_subscribe_nil|eauto].
    + destruct (step_live (StrategyChange s) p Hs Hl) as ((-> & _) & He).
      rewrite Hs. split; [by apply filter_values_subscribe_nil|eauto].
    + destruct (step_live (ScheduledRun id) p Hs Hl) as ((-> & _) & He).
      rewrite Hs. split; [by apply filter_values_subscribe_nil|eauto].
    + destruct (step_live Destroy p Hs Hl) as ((-> & _) & He).
      split; [by apply filter_values_subscribe_nil|eauto].
  - destruct e as [po config cb sync|n|s|id|].
    + cbn [step]. rewrite bind_eq. cbn [ret state_of effects_of fst snd].
      rewrite app_nil_r.
      destruct (transform_closed po config cb sync p Hs Hi)
        as (_ & _ & -> & _ & He).
      split; [|eauto]. apply filter_values_subscribe_nil.
      eapply Forall_impl; [exact He|]. by intros ? [? _].
    + rewrite (step_idle (Emission n) p Hi) by congruence.
      cbn. rewrite Hs. eauto.
    + rewrite (step_idle (StrategyChange s) p Hi) by congruence.
      cbn. rewrite Hs. eauto.
    + rewrite (step_idle (ScheduledRun id) p Hi) by congruence.
      cbn. rewrite Hs. eauto.
    + rewrite (step_idle Destroy p Hi) by congruence.
      cbn. rewrite Hs. eauto.
Qed.

Lemma run_values_subscribe events p :
  consistent p →
  length (List.filter is_values_subscribe (effects_of (run events p))) ≤
  match subscription p with None => 1 | Some _ => 0 end.
Proof.
  revert p. induction events as [|e events IH]; intros p Hp.
  { cbn. destruct (subscription p); lia. }
  rewrite run_cons. cbn [effects_of snd]. rewrite List.filter_app, length_app.
  pose proof (step_values_subscribe e p Hp) as Hstep.
  pose proof (IH _ (step_consistent e p Hp)) as Hrest.
  destruct (subscription p) as [s|].
  - destruct Hstep as [-> [s' Hs']]. rewrite Hs' in Hrest. cbn [length]. lia.
  - destruct e; destruct Hstep as [-> Hs']; rewrite Hs' in Hrest; cbn [length]; lia.
Qed.

Lemma run_closed events p :
  subscription p = Some (mkSubscription true) → idle p →
  subscription (state_of (run events p)) = Some (mkSubscription true) ∧
  renderedValue (state_of (run events p)) = renderedValue p ∧
  Forall (λ e, is_values_subscribe e = false ∧ is_rendering e = false)
    (effects_of (run events p)).
Proof.
  revert p. induction events as [|e events IH]; intros p Hs Hi.
  { by cbn. }
  rewrite run_cons. cbn [state_of effects_of fst snd].
  assert (subscription (state_of (step e p)) = Some (mkSubscription true) ∧
          idle (state_of (step e p)) ∧
          renderedValue (state_of (step e p)) = renderedValue p ∧
          Forall (λ e, is_values_subscribe e = false ∧ is_rendering e = false)
            (effects_of (step e p))) as (Hs' & Hi' & Hr' & He').
  { destruct e as [po config cb sync|n|s|id|].
    - cbn [step]. rewrite bind_eq. cbn [ret state_of effects_of fst snd].
      rewrite app_nil_r.
      by destruct (transform_closed po config cb sync p Hs Hi) as (_ & ? & ? & ? & ?).
    - by rewrite (step_idle (Emission n) p Hi) by congruence.
    - by rewrite (step_idle (StrategyChange s) p Hi) by congruence.
    - by rewrite (step_idle (ScheduledRun id) p Hi) by congruence.
    - by rewrite (step_idle Destroy p Hi) by congruence. }
  destruct (IH _ Hs' Hi') as (H1 & H2 & H3).
  split_and!; [done|congruence|]. by apply Forall_app.
Qed.

Lemma ngOnDestroy_closes p s :
  consistent p → subscription p = Some s →
  subscription (state_of (ngOnDestroy p)) = Some (mkSubscription true) ∧
  idle (state_of (ngOnDestroy p)) ∧
  renderedValue (state_of (ngOnDestroy p)) = renderedValue p ∧
  (closed s = false → ValuesUnsubscribe ∈ effects_of (ngOnDestroy p)).
Proof.
  intros Hp Hs.
  destruct (consistent_cases p Hp) as [[Hs' Hi]|[[Hs' Hl]|[Hs' Hi]]];
    [congruence| |].
  - destruct p as [rv sub pz cb st [buf rc] vs rs k].
    destruct Hl as (Hrc & Hvs & i & Hrs). cbn in Hs', Hrc, Hvs, Hrs. subst.
    destruct i as [[current w]|]; cbn; split_and!; try done;
      intros _; rewrite !elem_of_cons; eauto.
  - rewrite ngOnDestroy_idle by congruence. cbn.
    split_and!; try done. intros Hc. rewrite Hs' in Hs. by simplify_eq.
Qed.

(** C10.  The internal subscription.  In any execution of a pipe,
    [templateObserver.values$] is subscribed at most once.  The first
    [transform] call on a new pipe creates the subscription, subscribing
    exactly once.  A [transform] call on a pipe that has a subscription keeps
    it and subscribes to nothing.  [ngOnDestroy] on a pipe that has a
    subscription closes it, unsubscribing from [values$] if it was open;
    whatever happens afterwards, the subscription stays closed,
    [renderedValue] stays what it was, nothing is subscribed again, and no
    rendering work is done: no [schedule] call, no strategy work, no render
    callback. *)
Theorem C10_subscription_created_once :
  (∀ events,
     length (List.filter is_values_subscribe (effects_of (run events create))) ≤ 1) ∧
  (∀ po config cb sync,
     let r := transform po config cb sync create in
     subscription (state_of r) = Some (mkSubscription false) ∧
     List.filter is_values_subscribe (effects_of r) = [ValuesSubscribe]) ∧
  (∀ events s po config cb sync,
     subscription (state_of (run events create)) = Some s →
     let r := transform po config cb sync (state_of (run events create)) in
     subscription (state_of r) = Some s ∧
     Forall (λ e, is_values_subscribe e = false) (effects_of r)) ∧
  (∀ events s later,
     subscription (state_of (run events create)) = Some s →
     let p := state_of (run events create) in
     let destroyed := state_of (ngOnDestroy p) in
     (closed s = false → ValuesUnsubscribe ∈ effects_of (ngOnDestroy p)) ∧
     subscription destroyed = Some (mkSubscription true) ∧
     subscription (state_of (run later destroyed)) = Some (mkSubscription true) ∧
     renderedValue (state_of (run later destroyed)) = renderedValue p ∧
     Forall (λ e, is_values_subscribe e = false ∧ is_rendering e = false)
       (effects_of (run later destroyed))).
Proof.
  split_and!.
  - intros events. apply (run_values_subscribe events create create_consistent).
  - intros po config cb sync. cbn zeta.
    by destruct (transform_first po config cb sync create)
      as (_ & _ & ? & _ & _ & _ & ? & _).
  - intros events s po config cb sync Hs. cbn zeta.
    pose proof (run_consistent events create create_consistent) as Hp.
    destruct (consistent_cases _ Hp) as [[Hs' Hi]|[[Hs' Hl]|[Hs' Hi]]];
      [congruence| |].
    + destruct (transform_live po config cb sync _ Hs' Hl) as (_ & _ & ? & _ & ?).
      split; [congruence|done].
    + destruct (transform_closed po config cb sync _ Hs' Hi) as (_ & _ & ? & _ & He).
      split; [congruence|]. eapply Forall_impl; [exact He|]. by intros ? [? _].
  - intros events s later Hs. cbn zeta.
    pose proof (run_consistent events create create_consistent) as Hp.
    destruct (ngOnDestroy_closes _ s Hp Hs) as (Hc & Hi & Hr & Hu).
    destruct (run_closed later _ Hc Hi) as (H1 & H2 & H3).
    split_and!; try done. congruence.
Qed.

(** *** The initial value *)

Lemma foldl_const_true {A} (l : list A) b :
  foldl (λ _ _, true) b l = if l is [] then b else true.
Proof.
  revert b. induction l as [|a l IH]; intros b; cbn; [done|].
  rewrite IH. by destruct l.
Qed.

Lemma hasInitialValue_result {A} (value_subscribe : M (list A))
    (value_unsubscribe : M unit) p :
  result_of (hasInitialValue value_subscribe value_unsubscribe p) =
  [Rx.OnNext (bool_decide (result_of (value_subscribe p) ≠ [])); Rx.OnComplete].
Proof.
  unfold hasInitialValue. rewrite !bind_eq. cbn [ret result_of fst snd].
  rewrite foldl_const_true. by destruct (result_of (value_subscribe p)).
Qed.

Lemma last_is_Some_decide (l : list RxNotification) :
  bool_decide (is_Some (last l)) = bool_decide (l ≠ []).
Proof. apply bool_decide_ext, last_is_Some. Qed.

Lemma create_idle : idle create.
Proof. done. Qed.

(** C9.  The initial value.  [hasInitialValue(value$)] sends its subscriber
    one boolean and then completes; the boolean is [true] exactly when
    subscribing to [value$] produced a value before returning.  In
    [handleChangeDetection], once [setRenderedValue] has subscribed with
    [renderedValue] updated from what was emitted synchronously, the flag
    is [true] exactly when a [Suspense] or [Next] notification was emitted
    synchronously; the render subscriber made with [skip(isSync ? 1 : 0)] is
    replayed exactly as many notifications as it skips (one if the flag is
    [true], none otherwise), schedules nothing for them and is left with
    nothing to skip.  So the first [transform] call schedules no
    change-detection pass, and afterwards each [Suspense] or [Next]
    notification reaching a subscribed pipe that has a strategy makes
    exactly one [schedule] call, for its value. *)
Theorem C9_initial_value_is_not_scheduled :
  (∀ A (value_subscribe : M (list A)) (value_unsubscribe : M unit) (p : RxPush),
     result_of (hasInitialValue value_subscribe value_unsubscribe p) =
     [Rx.OnNext (bool_decide (result_of (value_subscribe p) ≠ []));
      Rx.OnComplete]) ∧
  (∀ sync,
     let isSync := bool_decide (List.filter onlyValues sync ≠ []) in
     let p1 := state_of (setRenderedValue_subscribe sync create) in
     renderedValue p1 = most_recent_value sync ∧
     hasInitialValue (templateValues_subscribe sync) templateValues_unsubscribe p1 =
       ([Rx.OnNext isSync; Rx.OnComplete], p1, []) ∧
     length (result_of (templateValues_subscribe sync
               (set_render_sub
                  (Some (mkChain (if isSync then 1 else 0) None)) p1))) =
       (if isSync then 1 else 0) ∧
     effects_of (render_subscribe (context cdRef) sync isSync p1) = [] ∧
     render_sub (state_of (render_subscribe (context cdRef) sync isSync p1)) =
       Some (mkChain 0 None)) ∧
  (∀ po config cb sync,
     Forall (λ e, is_schedule e = false)
       (effects_of (transform po config cb sync create)) ∧
     renderedValue (state_of (transform po config cb sync create)) =
       most_recent_value sync) ∧
  (∀ events n s,
     let p := state_of (run events create) in
     subscription p = Some (mkSubscription false) →
     onlyValues n = true →
     strategy_latest p = Some s →
     renderedValue (state_of (step (Emission n) p)) = value n ∧
     List.filter is_schedule (effects_of (step (Emission n) p)) =
       [Schedule (scheduled p)
          (mkWork s cdRef (context cdRef) (value n))
          (mkOptions (context cdRef) (name s) (patchZone p))]).
Proof.
  split_and!.
  - intros. apply hasInitialValue_result.
  - intros sync. cbn zeta.
    rewrite (setRenderedValue_subscribe_idle sync create create_idle).
    cbn [state_of fst snd]. split_and!.
    + done.
    + rewrite hasInitialValue_templateValues by done. cbn.
      by rewrite last_is_Some_decide.
    + rewrite (templateValues_subscribe_later _ _ 0) by done. cbn.
      rewrite <- last_is_Some_decide.
      by destruct (last (List.filter onlyValues sync)).
    + rewrite render_subscribe_replay; [done|done|].
      cbn. by rewrite last_is_Some_decide.
    + rewrite render_subscribe_replay; [done|done|].
      cbn. by rewrite last_is_Some_decide.
  - intros po config cb sync.
    destruct (transform_first po config cb sync create eq_refl create_idle)
      as (_ & Hr & _ & _ & _ & _ & _ & He).
    split; [|done]. eapply Forall_impl; [exact He|]. by intros [].
  - intros events n s p Hs Hn Hst.
    pose proof (run_consistent events create create_consistent) as Hp.
    fold p in Hp. unfold consistent in Hp. rewrite Hs in Hp.
    destruct (values_next_live n p Hp Hn) as (_ & Hr & _ & _ & _ & _ & He).
    rewrite Hst in He. by cbn [step].
Qed.

(* ===================================================================== *)
(** ** Further properties of the pipe *)
(* ===================================================================== *)

(** *** The configuration across calls *)

Lemma quiet_handler_nexts z l : Forall (quiet z) l → handler_nexts l = [].
Proof.
  induction 1 as [|e l He _ IH]; [done|].
  unfold handler_nexts in *. cbn [flat_map]. rewrite IH. by destruct e.
Qed.

Lemma isRxComponentInput_falsy config :
  truthy config = false → isRxComponentInput config = false.
Proof.
  intros H. destruct (isRxComponentInput config) eqn:Hi; [|done].
  apply isRxComponentInput_truthy in Hi. congruence.
Qed.

(** X1.  A [transform] call whose [config] is falsy (absent, [null],
    [false], [0], the empty string) does not address the strategy handler
    and leaves the strategy and the patch zone as they were; the render
    callback is the third argument. *)
Theorem X1_falsy_config_changes_nothing po config cb sync (p : RxPush) :
  truthy config = false →
  let r := transform po config cb sync p in
  handler_nexts (effects_of r) = [] ∧
  strategy_latest (state_of r) = strategy_latest p ∧
  patchZone (state_of r) = patchZone p ∧
  _renderCallback (state_of r) = cb.
Proof.
  intros Hf. cbn zeta. rewrite transform_split.
  cbn [state_of effects_of fst snd].
  rewrite (configure_none _ _ _ Hf). cbn [state_of effects_of fst snd app].
  match goal with |- context [state_of (_ ?q)] =>
    destruct (transform_rest_frame po sync q) as (Hc & Hz & Hs & Hq) end.
  rewrite Hc, Hz, Hs. split_and!; try done.
  by eapply quiet_handler_nexts.
Qed.

Lemma transform_renderCallback po config cb sync p :
  _renderCallback (state_of (transform po config cb sync p)) =
  callback_of config cb.
Proof.
  rewrite transform_split. cbn [state_of fst snd].
  match goal with |- context [state_of (_ ?q)] =>
    destruct (transform_rest_frame po sync q) as (-> & _) end.
  unfold callback_of. destruct (truthy config) eqn:Ht.
  - destruct (isRxComponentInput config) eqn:Hi.
    + by rewrite configure_input.
    + by rewrite configure_name.
  - rewrite configure_none, isRxComponentInput_falsy by done. done.
Qed.

(** X2.  The render callback does not outlive the call that set it: after
    any [transform] call, on any pipe, the callback in force is
    [config.renderCallback] if [config] is a [PushInput] and the third
    argument otherwise.  So a callback given in an earlier call is dropped
    by a call without one, and a third argument given along with a
    [PushInput] is ignored. *)
Theorem X2_render_callback_is_per_call po config cb sync (p : RxPush) :
  _renderCallback (state_of (transform po config cb sync p)) =
    callback_of config cb ∧
  (∀ po' sync' (p' : RxPush),
     _renderCallback (state_of (transform po' config cb sync' p')) =
     _renderCallback (state_of (transform po config cb sync p))).
Proof.
  split; [apply transform_renderCallback|].
  intros. by rewrite !transform_renderCallback.
Qed.

Lemma transform_patchZone po config cb sync p :
  patchZone (state_of (transform po config cb sync p)) =
  patch_of config (patchZone p).
Proof.
  rewrite transform_split. cbn [state_of fst snd].
  match goal with |- context [state_of (_ ?q)] =>
    destruct (transform_rest_frame po sync q) as (_ & -> & _) end.
  unfold patch_of. destruct (truthy config) eqn:Ht.
  - destruct (isRxComponentInput config) eqn:Hi.
    + by rewrite configure_input.
    + by rewrite configure_name.
  - rewrite configure_none, isRxComponentInput_falsy by done. done.
Qed.

Lemma step_patchZone e p :
  patchZone (state_of (step e p)) =
  match e with
  | Transform _ config _ _ => patch_of config (patchZone p)
  | _ => patchZone p
  end.
Proof.
  destruct e as [po config cb sync|n|s|id|]; cbn [step].
  - rewrite bind_eq. cbn [ret state_of fst snd]. apply transform_patchZone.
  - by destruct (values_next_settled (_renderCallback p) (patchZone p)
                   (strategy_latest p) n p []) as (_ & ? & _).
  - done.
  - by destruct (scheduled_run_effects id p).
  - by destruct (ngOnDestroy_settled (_renderCallback p) (patchZone p)
                   (strategy_latest p) p []) as (_ & ? & _).
Qed.

Lemma run_patchZone events p :
  patchZone (state_of (run events p)) = patch_after events (patchZone p).
Proof.
  revert p. induction events as [|e events IH]; intros p; [done|].
  rewrite run_cons. cbn [state_of fst snd].
  rewrite IH, step_patchZone. unfold patch_after. cbn [foldl].
  by destruct e.
Qed.

(** X3.  The patch zone persists across calls: after any sequence of
    events on a new pipe, the [patchZone] field is the one set by the most
    recent [transform] call whose [config] was a [PushInput]; calls with a
    strategy name or without [config], emissions, scheduled work and
    [ngOnDestroy] leave it alone, and before the first such call it is
    unset. *)
Theorem X3_patch_zone_persists events :
  patchZone (state_of (run events create)) = patch_after events PatchZoneUnset.
Proof. apply (run_patchZone events create). Qed.

(** *** The calls to the strategy handler and to the template observer *)

(** The log holds no call to the strategy handler or the template
    observer. *)
Lemma internal_log (log : list Effect) e :
  handler_nexts [e] = [] → observer_nexts [e] = [] →
  handler_nexts log = [] ∧ observer_nexts log = [] →
  handler_nexts (log ++ [e]) = [] ∧ observer_nexts (log ++ [e]) = [].
Proof.
  unfold handler_nexts, observer_nexts. rewrite !flat_map_app.
  by intros -> -> [-> ->].
Qed.

Ltac preserve_internal :=
  preserve;
  try (by intros ? ? H; exact H);
  try (by intros ? ? ? H; exact H);
  try (by intros; apply internal_log).

Lemma values_next_internal n :
  preserves (λ _ log, handler_nexts log = [] ∧ observer_nexts log = [])
    (values_next n).
Proof. preserve_internal. Qed.

Lemma subscribe_once_internal sync :
  preserves (λ _ log, handler_nexts log = [] ∧ observer_nexts log = [])
    (subscribe_once sync).
Proof. unfold subscribe_once. preserve_internal. Qed.

Lemma ngOnDestroy_internal :
  preserves (λ _ log, handler_nexts log = [] ∧ observer_nexts log = [])
    ngOnDestroy.
Proof. preserve_internal. Qed.

Lemma scheduled_run_internal id :
  preserves (λ _ log, handler_nexts log = [] ∧ observer_nexts log = [])
    (scheduled_run id).
Proof. preserve_internal. Qed.

Lemma transform_calls po config cb sync p :
  handler_nexts (effects_of (transform po config cb sync p)) =
    option_list (handler_argument config) ∧
  observer_nexts (effects_of (transform po config cb sync p)) = [po].
Proof.
  rewrite transform_split. cbn [effects_of snd].
  set (q := state_of _).
  assert (handler_nexts
            (effects_of ((modify (set__renderCallback cb) >> configure config) p)) =
            option_list (handler_argument config) ∧
          observer_nexts
            (effects_of ((modify (set__renderCallback cb) >> configure config) p)) =
            []) as [Hh Ho].
  { unfold handler_argument. destruct (truthy config) eqn:Ht.
    - destruct (isRxComponentInput config) eqn:Hi.
      + by rewrite configure_input.
      + by rewrite configure_name.
    - by rewrite configure_none. }
  assert (handler_nexts
            (effects_of ((templateObserver_next po sync >> subscribe_once sync >>
                          gets renderedValue) q)) = [] ∧
          observer_nexts
            (effects_of ((templateObserver_next po sync >> subscribe_once sync >>
                          gets renderedValue) q)) = [po]) as [Hh' Ho'].
  { unfold templateObserver_next. rewrite !bind_eq.
    cbn [call gets result_of state_of effects_of fst snd].
    set (q1 := state_of (for_each sync values_next q)).
    destruct (preserves_for_each _ sync values_next values_next_internal q [])
      as [H1 H2]; [done|].
    destruct (subscribe_once_internal sync q1 []) as [H3 H4]; [done|].
    cbn [app] in H1, H2, H3, H4.
    unfold handler_nexts, observer_nexts in *.
    rewrite !flat_map_app. cbn [flat_map app].
    by rewrite H1, H2, H3, H4. }
  unfold handler_nexts, observer_nexts in *.
  rewrite !flat_map_app, Hh, Ho, Hh', Ho'. by rewrite app_nil_r.
Qed.

Lemma step_calls e p :
  handler_nexts (effects_of (step e p)) = handler_calls [e] ∧
  observer_nexts (effects_of (step e p)) = observer_calls [e].
Proof.
  unfold handler_calls, observer_calls. cbn [flat_map]. rewrite !app_nil_r.
  destruct e as [po config cb sync|n|s|id|]; cbn [step].
  - rewrite bind_eq. cbn [ret effects_of snd]. rewrite app_nil_r.
    apply transform_calls.
  - by apply (values_next_internal n p []).
  - done.
  - by apply (scheduled_run_internal id p []).
  - by apply (ngOnDestroy_internal p []).
Qed.

Lemma run_calls events p :
  handler_nexts (effects_of (run events p)) = handler_calls events ∧
  observer_nexts (effects_of (run events p)) = observer_calls events.
Proof.
  revert p. induction events as [|e events IH]; intros p; [done|].
  rewrite run_cons. cbn [effects_of snd].
  destruct (step_calls e p) as [H1 H2].
  destruct (IH (state_of (step e p))) as [H3 H4].
  unfold handler_nexts, observer_nexts, handler_calls, observer_calls in *.
  rewrite !flat_map_app, H1, H2, H3, H4. cbn [flat_map].
  by rewrite !app_nil_r.
Qed.

(** X4.  In any execution, [strategyHandler.next] is called exactly once
    for each [transform] call with a truthy [config], in the order of the
    calls, with [config.strategy] for a [PushInput] and with [config] itself
    otherwise; nothing else calls it, and the calls are made on a destroyed
    pipe as on any other. *)
Theorem X4_strategy_handler_calls events (p : RxPush) :
  handler_nexts (effects_of (run events p)) = handler_calls events.
Proof. apply run_calls. Qed.

(** X5.  In any execution, [templateObserver.next] is called exactly once
    for each [transform] call, with the call's first argument and in the
    order of the calls, whether the argument is new or the same as before
    and whether or not the pipe is destroyed; nothing else calls it. *)
Theorem X5_every_input_is_forwarded events (p : RxPush) :
  observer_nexts (effects_of (run events p)) = observer_calls events.
Proof. apply run_calls. Qed.

(** *** Notifications, scheduled work and the render callback *)

(** A [Suspense] or [Next] notification on a subscribed pipe, in full. *)
Lemma values_next_value n p :
  live p → onlyValues n = true →
  let r := values_next n p in
  renderedValue (state_of r) = value n ∧
  Rx.buffer (templateValues (state_of r)) = Some n ∧
  match strategy_latest p with
  | None =>
      effects_of r = [] ∧
      render_sub (state_of r) = render_sub p ∧
      scheduled (state_of r) = scheduled p
  | Some s =>
      effects_of r =
        pending_cancel p ++
        [Schedule (scheduled p)
           (mkWork s cdRef (context cdRef) (value n))
           (mkOptions (context cdRef) (name s) (patchZone p))] ∧
      render_sub (state_of r) =
        Some (mkChain 0
                (Some (scheduled p, mkWork s cdRef (context cdRef) (value n)))) ∧
      scheduled (state_of r) = S (scheduled p)
  end.
Proof.
  destruct p as [rv sub pz cb st [buf rc] vs rs k].
  intros (Hrc & Hvs & i & Hrs) Hn. cbn in Hrc, Hvs, Hrs. subst rc vs rs.
  unfold values_next, Rx.filter. rewrite Hn.
  by destruct st as [s|], i as [[id w]|].
Qed.

(** X6.  Without a strategy nothing is scheduled: when [strategy$] has not
    emitted, a [Suspense] or [Next] notification reaching a subscribed pipe
    is stored in [renderedValue], but [withLatestFrom] drops it and the pipe
    makes no call at all. *)
Theorem X6_no_strategy_no_schedule events n :
  let p := state_of (run events create) in
  subscription p = Some (mkSubscription false) →
  onlyValues n = true →
  strategy_latest p = None →
  renderedValue (state_of (step (Emission n) p)) = value n ∧
  effects_of (step (Emission n) p) = [].
Proof.
  intros p Hs Hn Hst.
  pose proof (run_consistent events create create_consistent) as Hp.
  fold p in Hp. unfold consistent in Hp. rewrite Hs in Hp.
  destruct (values_next_value n p Hp Hn) as (Hr & _ & He).
  rewrite Hst in He. cbn [step]. by destruct He as (-> & _).
Qed.

Lemma scheduled_run_pending id w c p :
  render_sub p = Some c → inner c = Some (id, w) →
  effects_of (scheduled_run id p) =
    StrategyWork id (work_strategy w) (work_cdRef w) (work_scope w) ::
    (if is_nullish (_renderCallback p) then []
     else [RenderCallbackNext (_renderCallback p) (work_result w)]) ∧
  render_sub (state_of (scheduled_run id p)) =
    Some (mkChain (skip_remaining c) None).
Proof.
  destruct p as [rv sub pz cb st tv vs rs k]. cbn.
  intros -> Hi. unfold scheduled_run, tap_renderCallback.
  cbn [gets bind render_sub]. rewrite Hi, Nat.eqb_refl.
  rewrite !bind_eq. cbn. by destruct (is_nullish cb).
Qed.

Lemma scheduled_run_other id p :
  (∀ c w, render_sub p = Some c → inner c ≠ Some (id, w)) →
  scheduled_run id p = (tt, p, []).
Proof.
  intros H. unfold scheduled_run. rewrite bind_eq. cbn.
  destruct (render_sub p) as [c|] eqn:Hc; [|done].
  destruct (inner c) as [[current w]|] eqn:Hi; [|done].
  destruct (Nat.eqb_spec id current) as [->|]; [|done].
  by destruct (H c w eq_refl).
Qed.

(** A burst of [Suspense] or [Next] notifications on a subscribed pipe
    that has a strategy. *)
Lemma run_burst ns n s p :
  live p → subscription p = Some (mkSubscription false) →
  strategy_latest p = Some s →
  Forall (λ m, onlyValues m = true) ns → last ns = Some n →
  let r := run (Emission <$> ns) p in
  render_sub (state_of r) =
    Some (mkChain 0
            (Some (scheduled p + length ns - 1,
                   mkWork s cdRef (context cdRef) (value n)))) ∧
  scheduled (state_of r) = scheduled p + length ns ∧
  renderedValue (state_of r) = value n ∧
  length (List.filter is_schedule (effects_of r)) = length ns.
Proof.
  intros Hl Hs Hst Hall. revert p Hl Hs Hst.
  induction Hall as [|m ns Hm Hall IH]; intros p Hl Hs Hst Hlast; [done|].
  cbn zeta. cbn [fmap list_fmap]. rewrite run_cons.
  cbn [state_of effects_of fst snd step].
  destruct (values_next_value m p Hl Hm) as (Hr & _ & He). rewrite Hst in He.
  destruct He as (He & Hrs & Hk).
  destruct (values_next_live m p Hl Hm) as (Hl' & _ & Hs' & _ & _ & Hst' & Hf).
  rewrite Hst in Hf. rewrite List.filter_app, length_app, Hf.
  destruct ns as [|m' ns].
  - cbn in Hlast. injection Hlast as <-. unfold run.
    cbn [fmap list_fmap for_each ret state_of effects_of fst snd length
         List.filter].
    rewrite Hrs, Hk, Hr. split_and!; try done; [|lia].
    do 4 f_equal. lia.
  - rewrite last_cons_cons in Hlast.
    destruct (IH _ Hl') as (H1 & H2 & H3 & H4); [congruence|congruence|done|].
    cbn zeta in H1, H2, H3, H4. cbn [fmap list_fmap] in H1, H2, H3, H4 |- *.
    rewrite H1, H2, H3, H4, Hk. cbn [length].
    split_and!; try done; [|lia].
    do 4 f_equal. lia.
Qed.

(** X7.  Only the latest notification is rendered.  When a subscribed pipe
    that has a strategy receives several [Suspense] or [Next] notifications
    before the provider runs any work, [schedule] is called once for each,
    but [switchMap] drops every call but the last: the only work left to run
    is the one for the last notification, and the provider's turn for any
    other call does nothing. *)
Theorem X7_only_latest_work_is_pending events ns n s :
  let p := state_of (run events create) in
  subscription p = Some (mkSubscription false) →
  strategy_latest p = Some s →
  Forall (λ m, onlyValues m = true) ns →
  last ns = Some n →
  let r := run (Emission <$> ns) p in
  let latest := scheduled p + length ns - 1 in
  length (List.filter is_schedule (effects_of r)) = length ns ∧
  effects_of (step (ScheduledRun latest) (state_of r)) =
    StrategyWork latest s cdRef (context cdRef) ::
    (if is_nullish (_renderCallback (state_of r)) then []
     else [RenderCallbackNext (_renderCallback (state_of r)) (value n)]) ∧
  (∀ id, id ≠ latest →
     step (ScheduledRun id) (state_of r) = (tt, state_of r, [])).
Proof.
  intros p Hs Hst Hall Hlast. cbn zeta.
  pose proof (run_consistent events create create_consistent) as Hp.
  fold p in Hp. unfold consistent in Hp. rewrite Hs in Hp.
  destruct (run_burst ns n s p Hp Hs Hst Hall Hlast) as (Hrs & _ & _ & Hlen).
  cbn zeta in Hrs, Hlen. split_and!.
  - done.
  - cbn [step].
    by destruct (scheduled_run_pending _ _ _ _ Hrs eq_refl) as [-> _].
  - intros id Hid. cbn [step]. apply scheduled_run_other.
    intros c w Hc Hi. rewrite Hrs in Hc. injection Hc as <-.
    cbn in Hi. congruence.
Qed.

Lemma transform_rest_quiet po q s0 :
  subscription q = Some s0 →
  (templateObserver_next po [] >> subscribe_once [] >> gets renderedValue) q =
  (renderedValue q, q, [TemplateObserverNext po]).
Proof.
  intros Hs. unfold templateObserver_next, subscribe_once.
  rewrite !bind_eq. cbn [call for_each ret gets result_of state_of effects_of fst snd].
  by rewrite Hs.
Qed.

(** X8.  Work is scheduled with the strategy in force when the
    notification arrives, and the render callback is looked up when the
    work completes.  If, after a notification was scheduled, a [transform]
    call that delivers nothing new changes the strategy and the render
    callback, the provider's turn still runs the work of the strategy that
    was in force at the notification, and notifies the callback of that
    later call (or none, if that call set none) of the notification's
    value. *)
Theorem X8_strategy_then_callback events n s po config cb :
  let p := state_of (run events create) in
  subscription p = Some (mkSubscription false) →
  onlyValues n = true →
  strategy_latest p = Some s →
  let p1 := state_of (step (Emission n) p) in
  let p2 := state_of (transform po config cb [] p1) in
  effects_of (step (ScheduledRun (scheduled p)) p2) =
    StrategyWork (scheduled p) s cdRef (context cdRef) ::
    (if is_nullish (callback_of config cb) then []
     else [RenderCallbackNext (callback_of config cb) (value n)]).
Proof.
  intros p Hs Hn Hst p1 p2.
  pose proof (run_consistent events create create_consistent) as Hp.
  fold p in Hp. unfold consistent in Hp. rewrite Hs in Hp.
  destruct (values_next_value n p Hp Hn) as (_ & _ & He). rewrite Hst in He.
  destruct He as (_ & Hrs & _).
  destruct (values_next_live n p Hp Hn) as (_ & _ & Hs1 & _).
  assert (render_sub p2 = render_sub p1 ∧
          _renderCallback p2 = callback_of config cb) as [Hrs2 Hcb2].
  { split; [|apply transform_renderCallback].
    unfold p2. rewrite transform_split. cbn [state_of fst snd].
    destruct (configure_frame config cb p1) as (_ & Hsub & _ & _ & Hr & _).
    erewrite transform_rest_quiet; [done|].
    rewrite Hsub. unfold p1. cbn [step]. by rewrite Hs1, Hs. }
  cbn [step].
  destruct (scheduled_run_pending (scheduled p)
              (mkWork s cdRef (context cdRef) (value n))
              (mkChain 0 (Some (scheduled p,
                                mkWork s cdRef (context cdRef) (value n)))) p2)
    as [-> _]; [by rewrite Hrs2|done|].
  by rewrite Hcb2.
Qed.

(** X9.  Configuration given in a call applies to what the call
    delivers.  When a [transform] call on a subscribed pipe delivers a
    [Suspense] or [Next] notification, the [schedule] call made for it uses
    the strategy and the patch zone as the call's own [config] left them. *)
Theorem X9_config_applies_within_the_call events po config cb n s :
  let p := state_of (run events create) in
  let r := transform po config cb [n] p in
  subscription p = Some (mkSubscription false) →
  onlyValues n = true →
  strategy_latest (state_of r) = Some s →
  List.filter is_schedule (effects_of r) =
    [Schedule (scheduled p)
       (mkWork s cdRef (context cdRef) (value n))
       (mkOptions (context cdRef) (name s) (patchZone (state_of r)))].
Proof.
  intros p r Hs Hn. unfold r. rewrite transform_split.
  cbn [state_of effects_of fst snd].
  pose proof (run_consistent events create create_consistent) as Hp.
  fold p in Hp. unfold consistent in Hp. rewrite Hs in Hp.
  destruct (configure_frame config cb p) as (_ & Hsub & Ht & Hv & Hr & Hk).
  pose proof (configure_effects config cb p) as He.
  set (q := state_of ((modify (set__renderCallback cb) >> configure config) p)) in *.
  set (e := effects_of ((modify (set__renderCallback cb) >> configure config) p)) in *.
  assert (live q) as Hq by by eapply live_frame.
  unfold templateObserver_next, subscribe_once.
  rewrite !bind_eq.
  cbn [call for_each ret gets result_of state_of effects_of fst snd].
  rewrite !bind_eq.
  cbn [call for_each ret gets result_of state_of effects_of fst snd].
  destruct (values_next_live n q Hq Hn) as (_ & _ & Hs' & Hz & _ & Hst & Hf).
  rewrite Hs', Hsub, Hs. cbn [ret state_of effects_of fst snd].
  rewrite Hst, Hz. intros Hstq. rewrite Hstq, Hk in Hf.
  rewrite !List.filter_app, Hf. cbn.
  replace (List.filter is_schedule e) with (@nil Effect); [done|].
  symmetry. clear -He. induction He as [|x l Hx _ IH]; [done|].
  cbn. by destruct x.
Qed.

(** *** Destruction *)

Lemma ngOnDestroy_live_effects p :
  subscription p = Some (mkSubscription false) → live p →
  effects_of (ngOnDestroy p) = ValuesUnsubscribe :: pending_cancel p ∧
  render_sub (state_of (ngOnDestroy p)) = None.
Proof.
  destruct p as [rv sub pz cb st [buf rc] vs rs k].
  intros Hs (Hrc & Hvs & i & Hrs). cbn in Hs, Hrc, Hvs, Hrs. subst.
  by destruct i as [[current w]|].
Qed.


(** X11.  [ngOnDestroy] is idempotent, and harmless before the first
    [transform] call: a second [ngOnDestroy] changes nothing and makes no
    call; on a pipe that has not subscribed yet [ngOnDestroy] does nothing
    at all, so that a [transform] call made afterwards still creates the
    subscription. *)
Theorem X11_destroy_is_idempotent events :
  let p := state_of (run events create) in
  ngOnDestroy (state_of (ngOnDestroy p)) = (tt, state_of (ngOnDestroy p), []) ∧
  (subscription p = None →
   ngOnDestroy p = (tt, p, []) ∧
   ∀ po config cb sync,
     subscription (state_of (transform po config cb sync
                               (state_of (ngOnDestroy p)))) =
     Some (mkSubscription false)).
Proof.
  intros p.
  pose proof (run_consistent events create create_consistent) as Hp. fold p in Hp.
  split.
  - destruct (subscription p) as [s|] eqn:Hs.
    + destruct (ngOnDestroy_closes p s Hp Hs) as (Hc & _).
      apply ngOnDestroy_idle. congruence.
    + rewrite (ngOnDestroy_idle p) by congruence. cbn [state_of fst snd].
      apply ngOnDestroy_idle. congruence.
  - intros Hs. rewrite (ngOnDestroy_idle p) by congruence.
    split; [done|]. intros po config cb sync. cbn [state_of fst snd].
    unfold consistent in Hp. rewrite Hs in Hp.
    by destruct (transform_first po config cb sync p Hs Hp) as (_ & _ & ? & _).
Qed.

(** *** What the pipe keeps between events *)

Lemma scheduled_run_frame id p :
  renderedValue (state_of (scheduled_run id p)) = renderedValue p ∧
  subscription (state_of (scheduled_run id p)) = subscription p ∧
  templateValues (state_of (scheduled_run id p)) = templateValues p.
Proof.
  destruct p as [rv sub pz cb st tv vs [[k [[current w]|]]|] sched];
    unfold scheduled_run, tap_renderCallback; cbn; try done.
  destruct (id =? current)%nat; [|done].
  rewrite !bind_eq. cbn. by destruct (is_nullish cb).
Qed.

Lemma for_each_values_next_buffered sync p :
  live p →
  renderedValue p = from_option value JUndefined (Rx.buffer (templateValues p)) →
  renderedValue (state_of (for_each sync values_next p)) =
  from_option value JUndefined
    (Rx.buffer (templateValues (state_of (for_each sync values_next p)))).
Proof.
  revert p. induction sync as [|n sync IH]; intros p Hl Hr; [done|].
  cbn [for_each]. rewrite bind_eq. cbn [state_of fst snd].
  destruct (onlyValues n) eqn:Hn.
  - destruct (values_next_live n p Hl Hn) as (Hl' & _).
    destruct (values_next_value n p Hl Hn) as (Hr' & Hb' & _).
    apply IH; [done|]. by rewrite Hr', Hb'.
  - rewrite values_next_filtered by done. by apply IH.
Qed.

Lemma transform_live_state po config cb sync p :
  subscription p = Some (mkSubscription false) → live p →
  state_of (transform po config cb sync p) =
  state_of (for_each sync values_next
              (state_of ((modify (set__renderCallback cb) >> configure config) p))).
Proof.
  intros Hs Hl. rewrite transform_split. cbn [state_of fst snd].
  destruct (configure_frame config cb p) as (_ & Hsub & Ht & Hv & Hr & _).
  set (q := state_of ((modify (set__renderCallback cb) >> configure config) p)) in *.
  assert (live q) as Hq by by eapply live_frame.
  destruct (for_each_values_next_live sync q Hq) as (_ & Hs' & _).
  unfold templateObserver_next, subscribe_once. rewrite !bind_eq.
  cbn [call gets result_of state_of effects_of fst snd].
  rewrite Hs', Hsub, Hs. reflexivity.
Qed.

Lemma step_rendered_is_buffered e p :
  consistent p → rendered_is_buffered p →
  rendered_is_buffered (state_of (step e p)).
Proof.
  intros Hp Hb. unfold rendered_is_buffered in *.
  destruct (consistent_cases p Hp) as [[Hs Hi]|[[Hs Hl]|[Hs Hi]]];
    rewrite Hs in Hb.
  - destruct e as [po config cb sync|n|s|id|].
    + cbn [step]. rewrite bind_eq. cbn [ret state_of fst snd].
      destruct (transform_first po config cb sync p Hs Hi)
        as (_ & -> & -> & _ & -> & _).
      rewrite Hb. unfold latest_value.
      by destruct (last (List.filter onlyValues sync)).
    + rewrite (step_idle (Emission n) p Hi) by congruence. cbn. by rewrite Hs.
    + rewrite (step_idle (StrategyChange s) p Hi) by congruence. cbn. by rewrite Hs.
    + rewrite (step_idle (ScheduledRun id) p Hi) by congruence. cbn. by rewrite Hs.
    + rewrite (step_idle Destroy p Hi) by congruence. cbn. by rewrite Hs.
  - destruct e as [po config cb sync|n|s|id|].
    + cbn [step]. rewrite bind_eq. cbn [ret state_of fst snd].
      destruct (transform_live po config cb sync p Hs Hl) as (_ & _ & -> & _).
      rewrite transform_live_state by done.
      destruct (configure_frame config cb p) as (Hr & _ & Ht & Hv & Hc & _).
      apply for_each_values_next_buffered; [by eapply live_frame|].
      by rewrite Hr, Ht.
    + destruct (step_live (Emission n) p Hs Hl) as ((-> & _ & Hr) & _).
      rewrite Hs. cbn [step] in *. destruct (onlyValues n) eqn:Hn.
      * by destruct (values_next_value n p Hl Hn) as (-> & -> & _).
      * by rewrite values_next_filtered.
    + cbn. by rewrite Hs.
    + cbn [step]. destruct (scheduled_run_frame id p) as (-> & -> & ->).
      by rewrite Hs.
    + by destruct (step_live Destroy p Hs Hl) as ((-> & _) & _).
  - destruct e as [po config cb sync|n|s|id|].
    + cbn [step]. rewrite bind_eq. cbn [ret state_of fst snd].
      by destruct (transform_closed po config cb sync p Hs Hi) as (_ & _ & -> & _).
    + rewrite (step_idle (Emission n) p Hi) by congruence. cbn. by rewrite Hs.
    + rewrite (step_idle (StrategyChange s) p Hi) by congruence. cbn. by rewrite Hs.
    + rewrite (step_idle (ScheduledRun id) p Hi) by congruence. cbn. by rewrite Hs.
    + rewrite (step_idle Destroy p Hi) by congruence. cbn. by rewrite Hs.
Qed.

Lemma run_rendered_is_buffered events p :
  consistent p → rendered_is_buffered p →
  rendered_is_buffered (state_of (run events p)).
Proof.
  revert p. induction events as [|e events IH]; intros p Hp Hb; [done|].
  rewrite run_cons. cbn [state_of fst snd].
  apply IH; [by apply step_consistent|by apply step_rendered_is_buffered].
Qed.

(** X12.  What holds between any two events of an execution.
    [templateValues$] has either no subscriber, with nothing buffered, or
    exactly the two subscribers of [handleChangeDetection], with [skip]
    having nothing left to drop; it has the two exactly while the
    subscription exists and is open.  While it has them, [renderedValue] is
    the value [templateValues$] has buffered for late subscribers
    ([undefined] if it has buffered none), and before the first [transform]
    call [renderedValue] is [undefined]. *)
Theorem X12_subscribers_and_buffer events :
  let p := state_of (run events create) in
  (match subscription p with
   | Some (mkSubscription false) =>
       Rx.refCount (templateValues p) = 2 ∧
       setRenderedValue_sub p = true ∧
       ∃ pending, render_sub p = Some (mkChain 0 pending)
   | _ =>
       templateValues p = Rx.share_idle ∧
       setRenderedValue_sub p = false ∧
       render_sub p = None
   end) ∧
  rendered_is_buffered p.
Proof.
  intros p. split.
  - apply (run_consistent events create create_consistent).
  - apply run_rendered_is_buffered; [apply create_consistent|done].
Qed.

(** *** Probing for an initial value *)

(** X13.  [hasInitialValue] on [templateValues$].  While
    [templateValues$] has a subscriber, the probe reports whether a value is
    buffered, leaves the pipe exactly as it found it and makes no call.
    While it has none, the probe itself subscribes [values$] and
    unsubscribes it again: it reports whether [values$] emitted a [Suspense]
    or [Next] notification synchronously, and that notification is lost,
    nothing being buffered afterwards. *)
Theorem X13_probe_needs_a_subscriber sync (p : RxPush) :
  (∀ k, Rx.refCount (templateValues p) = S k →
     hasInitialValue (templateValues_subscribe sync) templateValues_unsubscribe p =
     ([Rx.OnNext (bool_decide (is_Some (Rx.buffer (templateValues p))));
       Rx.OnComplete], p, [])) ∧
  (Rx.refCount (templateValues p) = 0 →
     let r :=
       hasInitialValue (templateValues_subscribe sync) templateValues_unsubscribe p in
     result_of r =
       [Rx.OnNext (bool_decide (List.filter onlyValues sync ≠ [])); Rx.OnComplete] ∧
     effects_of r = [ValuesSubscribe; ValuesUnsubscribe] ∧
     templateValues (state_of r) = Rx.share_idle).
Proof.
  split.
  - intros k Hk. destruct p as [rv sub pz cb st [buf rc] vs rs sched].
    cbn in Hk. subst rc. unfold hasInitialValue.
    rewrite bind_eq, (templateValues_subscribe_later _ _ k) by done.
    by destruct buf, k.
  - intros H0. cbn zeta. unfold hasInitialValue.
    rewrite !bind_eq, templateValues_subscribe_first by done.
    cbn [ret result_of state_of effects_of fst snd].
    rewrite foldl_const_true. split_and!.
    + by destruct (List.filter onlyValues sync).
    + done.
    + done.
Qed.

(** *** What the render callback is told *)

Lemma no_callback_log (log : list Effect) e :
  is_callback_next e = false →
  Forall (λ x, is_callback_next x = false) log →
  Forall (λ x, is_callback_next x = false) (log ++ [e]).
Proof. intros He Hl. apply Forall_app. split; [done|]. by constructor. Qed.

Ltac preserve_no_callback :=
  preserve;
  try (by intros ? ? H; exact H);
  try (by intros ? ? ? H; exact H);
  try (by intros; apply no_callback_log).

Lemma values_next_no_callback n :
  preserves (λ _ log, Forall (λ x, is_callback_next x = false) log)
    (values_next n).
Proof. preserve_no_callback. Qed.

Lemma subscribe_once_no_callback sync :
  preserves (λ _ log, Forall (λ x, is_callback_next x = false) log)
    (subscribe_once sync).
Proof. unfold subscribe_once. preserve_no_callback. Qed.

Lemma ngOnDestroy_no_callback :
  preserves (λ _ log, Forall (λ x, is_callback_next x = false) log) ngOnDestroy.
Proof. preserve_no_callback. Qed.

Lemma step_no_callback e p :
  (∀ id, e ≠ ScheduledRun id) →
  Forall (λ x, is_callback_next x = false) (effects_of (step e p)).
Proof.
  intros He. destruct e as [po config cb sync|n|s|id|]; cbn [step].
  - rewrite bind_eq. cbn [ret effects_of snd]. rewrite app_nil_r.
    rewrite transform_split. cbn [effects_of snd]. apply Forall_app. split.
    + eapply Forall_impl; [apply configure_effects|]. by intros [].
    + unfold templateObserver_next. rewrite !bind_eq.
      cbn [call gets result_of state_of effects_of fst snd].
      rewrite app_nil_r. apply Forall_cons. split; [done|].
      apply Forall_app. split.
      * by apply (preserves_for_each _ sync values_next values_next_no_callback _ []).
      * by apply (subscribe_once_no_callback sync _ []).
  - by apply (values_next_no_callback n p []).
  - constructor.
  - by destruct (He id).
  - by apply (ngOnDestroy_no_callback p []).
Qed.

Lemma scheduled_run_cases id p :
  scheduled_run id p = (tt, p, []) ∨
  ∃ c w, render_sub p = Some c ∧ inner c = Some (id, w) ∧
    effects_of (scheduled_run id p) =
      StrategyWork id (work_strategy w) (work_cdRef w) (work_scope w) ::
      (if is_nullish (_renderCallback p) then []
       else [RenderCallbackNext (_renderCallback p) (work_result w)]).
Proof.
  destruct (render_sub p) as [c|] eqn:Hc; [|left; by apply scheduled_run_idle].
  destruct (inner c) as [[current w]|] eqn:Hi.
  - destruct (decide (id = current)) as [->|Hne].
    + right. exists c, w. split_and!; try done.
      by destruct (scheduled_run_pending current w c p Hc Hi).
    + left. apply scheduled_run_other. intros c' w' Hc' Hi'. congruence.
  - left. apply scheduled_run_other. intros c' w' Hc' Hi'. congruence.
Qed.

Lemma callback_after_work events i cb v :
  effects_of (run events create) !! i = Some (RenderCallbackNext cb v) →
  is_nullish cb = false ∧
  ∃ id strategy j work options,
    effects_of (run events create) !! (i - 1) =
      Some (StrategyWork id strategy cdRef (opt_scope options)) ∧
    0 < i ∧ j < i - 1 ∧
    effects_of (run events create) !! j = Some (Schedule id work options) ∧
    work_strategy work = strategy ∧ work_result work = v.
Proof.
  revert i. induction events as [|e events IH] using rev_ind; intros i Hi.
  { by cbn in Hi. }
  rewrite run_snoc, bind_eq in Hi |- *. cbn [effects_of snd] in Hi |- *.
  fold (effects_of (run events create)) in *.
  fold (state_of (run events create)) in *.
  set (effs := effects_of (run events create)) in *.
  set (q := state_of (run events create)) in *.
  destruct (decide (i < length effs)) as [Hlt|Hge].
  - rewrite lookup_app_l in Hi by done.
    destruct (IH i Hi) as (Hcb & id & s & j & w & o & Hw & Hpos & Hj & Hs & Hv).
    pose proof (lookup_lt_Some _ _ _ Hs).
    split; [done|]. exists id, s, j, w, o.
    rewrite !lookup_app_l by lia. done.
  - rewrite lookup_app_r in Hi by lia.
    assert (∃ k, e = ScheduledRun k) as [k ->].
    { destruct e as [? ? ? ?|?|?|k|]; eauto.
      all: exfalso; apply list_elem_of_lookup_2 in Hi.
      all: match type of Hi with _ ∈ effects_of (step ?e ?q') =>
             pose proof (step_no_callback e q') as Hno end.
      all: rewrite Forall_forall in Hno; by specialize (Hno ltac:(done) _ Hi). }
    cbn [step] in Hi |- *.
    destruct (scheduled_run_cases k q) as [Heq|(c & w & Hc & Hin & Heff)].
    { rewrite Heq in Hi. by cbn in Hi. }
    rewrite Heff in Hi |- *.
    assert (inner_scheduled q effs) as Hinv.
    { apply (run_inner_scheduled events create []). by intros ? ? ? [=]. }
    destruct (Hinv c k w Hc Hin) as (Hcd & o & Ho & Hs & Hscope).
    apply list_elem_of_lookup_1 in Ho as [j Hj].
    pose proof (lookup_lt_Some _ _ _ Hj) as Hjlt.
    destruct (i - length effs) as [|[|m]] eqn:Hm; cbn in Hi; [done| |].
    + destruct (is_nullish (_renderCallback q)) eqn:Hnull; [done|].
      cbn in Hi. injection Hi as <- <-. split; [done|].
      exists k, (work_strategy w), j, w, o.
      replace (i - 1) with (length effs + 0) by lia.
      rewrite lookup_app_r by lia.
      replace (length effs + 0 - length effs) with 0 by lia. cbn.
      rewrite lookup_app_l by lia.
      split_and!; try done; try lia.
      by rewrite Hcd, Hscope.
    + by destruct (is_nullish (_renderCallback q)).
Qed.

(** X14.  What the render callback is told.  In any execution, each call
    [renderCallback.next(v)] is made on a callback that is neither [null]
    nor [undefined], directly after the provider ran a strategy's work on
    the pipe's [cdRef], and [v] is the value that work returns: the value of
    the notification for which [strategyProvider.schedule] was called with
    that work earlier in the execution. *)
Theorem X14_callback_follows_scheduled_work events i cb v :
  effects_of (run events create) !! i = Some (RenderCallbackNext cb v) →
  is_nullish cb = false ∧
  ∃ id strategy j work options,
    effects_of (run events create) !! (i - 1) =
      Some (StrategyWork id strategy cdRef (opt_scope options)) ∧
    0 < i ∧ j < i - 1 ∧
    effects_of (run events create) !! j = Some (Schedule id work options) ∧
    work_strategy work = strategy ∧ work_result work = v.
Proof. apply callback_after_work. Qed.

(** *** The rendered value *)

Lemma latest_value_nexts d l :
  latest_value d (mkNotification Next <$> l) = default d (last l).
Proof.
  unfold latest_value.
  replace (List.filter onlyValues (mkNotification Next <$> l))
    with (mkNotification Next <$> l).
  - rewrite fmap_last. by destruct (last l).
  - induction l as [|v l IH]; [done|]. cbn. by rewrite <- IH.
Qed.

(** A [transform] call on a pipe that has not been destroyed. *)
Lemma transform_open po config cb sync p :
  consistent p → subscription p ≠ Some (mkSubscription true) →
  let r := transform po config cb sync p in
  result_of r = latest_value (renderedValue p) sync ∧
  renderedValue (state_of r) = latest_value (renderedValue p) sync ∧
  consistent (state_of r) ∧
  subscription (state_of r) = Some (mkSubscription false).
Proof.
  intros Hp Hopen. cbn zeta.
  destruct (consistent_cases p Hp) as [[Hs Hi]|[[Hs Hl]|[Hs Hi]]]; [| |done].
  - destruct (transform_first po config cb sync p Hs Hi)
      as (H1 & H2 & H3 & H4 & _).
    split_and!; try done. unfold consistent. by rewrite H3.
  - destruct (transform_live po config cb sync p Hs Hl)
      as (H1 & H2 & H3 & H4 & _).
    split_and!; try done. unfold consistent. by rewrite H3.
Qed.

Lemma call_transform_in_step po config cb initial st seen :
  in_step st seen →
  let r := call_transform po config cb initial st in
  r.1 = default JUndefined (last (passed seen (Call po config cb initial)).2) ∧
  in_step r.2 (passed seen (Call po config cb initial)).
Proof.
  destruct st as [p nt], seen as [cur acc].
  intros (Hp & Hopen & Hf & Hr & He & Hn). cbn [fst snd] in *.
  cbn zeta. unfold call_transform. cbn [fst snd].
  rewrite (proj2 (transform_calls po config cb [] p)).
  cbn [notifier_feed]. unfold notifier_next, follows. rewrite Hf.
  cbn [passed fst snd].
  assert (∀ sent nt' seen',
    latest_value (renderedValue p) sent = default JUndefined (last seen'.2) →
    following nt' = seen'.1 →
    (emittedValueOnce nt' = false → seen'.2 = []) →
    let r := transform po config cb sent p in
    result_of r = default JUndefined (last seen'.2) ∧
    in_step (state_of r, nt') seen') as Hcall.
  { intros sent nt' seen' Hv Hf' He'. cbn zeta.
    destruct (transform_open po config cb sent p Hp Hopen)
      as (H1 & H2 & H3 & H4).
    split; [congruence|].
    unfold in_step. cbn [fst snd].
    split_and!; try done; congruence. }
  destruct cur as [o|].
  - destruct (strict_equal o po).
    + cbn [app]. apply (Hcall [] nt (Some o, acc)); cbn [fst snd]; try done.
    + destruct initial as [|v initial].
      * cbn [app fst snd]. rewrite app_nil_r.
        apply (Hcall _ _ (Some po, [])); cbn [fst snd]; try done.
        destruct (emittedValueOnce nt) eqn:Hone; [done|].
        rewrite (He eq_refl) in Hr. by rewrite Hr.
      * cbn [app fst snd]. rewrite app_nil_r.
        apply (Hcall _ _ (Some po, v :: initial)); cbn [fst snd]; try done.
        rewrite latest_value_nexts. by destruct (last (v :: initial)) eqn:E;
          [|apply last_None in E].
  - destruct initial as [|v initial].
    + cbn [app fst snd]. rewrite app_nil_r.
      apply (Hcall _ _ (Some po, [])); cbn [fst snd]; try done.
      destruct (emittedValueOnce nt) eqn:Hone; [done|].
      rewrite (He eq_refl) in Hr. by rewrite Hr.
    + cbn [app fst snd]. rewrite app_nil_r.
      apply (Hcall _ _ (Some po, v :: initial)); cbn [fst snd]; try done.
      rewrite latest_value_nexts. by destruct (last (v :: initial)) eqn:E;
        [|apply last_None in E].
Qed.

(** The strategy and the provider leave the rendered value alone. *)
Lemma step_keeps_rendered e p :
  consistent p → subscription p ≠ Some (mkSubscription true) →
  match e with StrategyChange _ | ScheduledRun _ => True | _ => False end →
  consistent (state_of (step e p)) ∧
  subscription (state_of (step e p)) = subscription p ∧
  renderedValue (state_of (step e p)) = renderedValue p.
Proof.
  intros Hp Hopen He.
  destruct (consistent_cases p Hp) as [[Hs Hi]|[[Hs Hl]|[Hs Hi]]]; [| |done].
  - assert (subscription p ≠ Some (mkSubscription false)) as Hs' by congruence.
    pose proof (step_idle e p Hi Hs') as H.
    destruct e as [? ? ? ?|n|s|id|]; try done; by rewrite H.
  - destruct (step_live e p Hs Hl) as [H _].
    destruct e as [? ? ? ?|n|s|id|]; try done;
      destruct H as (H1 & H2 & H3); split_and!; try done;
      unfold consistent; by rewrite H1, Hs.
Qed.

Lemma happen_in_step h st seen :
  h ≠ Destroyed → in_step st seen → in_step (happen st h) (passed seen h).
Proof.
  intros Hh Hst. destruct h as [po config cb initial|input v|s|id|]; [| | | |done].
  - apply (call_transform_in_step po config cb initial st seen Hst).
  - destruct st as [p nt], seen as [cur acc].
    destruct Hst as (Hp & Hopen & Hf & Hr & He & Hn). cbn [fst snd] in *.
    cbn [happen passed fst snd]. unfold notifier_emits, follows. rewrite Hf.
    destruct cur as [o|]; [|by unfold in_step].
    destruct (strict_equal o input); [|by unfold in_step].
    destruct (consistent_cases p Hp) as [[Hs Hi]|[[Hs Hl]|[Hs Hi]]];
      [by specialize (Hn Hs)| |done].
    cbn [fmap list_fmap]. rewrite run_cons.
    destruct (step_live (Emission (mkNotification Next v)) p Hs Hl)
      as [(H1 & H2 & H3) _].
    unfold in_step. cbn [fst snd run for_each ret bind state_of].
    cbn in H3. rewrite last_snoc.
    split_and!; try done; try congruence.
    unfold consistent. by rewrite H1, Hs.
  - destruct st as [p nt], seen as [cur acc].
    destruct Hst as (Hp & Hopen & Hf & Hr & He & Hn). cbn [fst snd] in *.
    destruct (step_keeps_rendered (StrategyChange s) p Hp Hopen I)
      as (H1 & H2 & H3).
    unfold in_step. cbn [happen passed fst snd].
    rewrite H2, H3. by split_and!.
  - destruct st as [p nt], seen as [cur acc].
    destruct Hst as (Hp & Hopen & Hf & Hr & He & Hn). cbn [fst snd] in *.
    destruct (step_keeps_rendered (ScheduledRun id) p Hp Hopen I)
      as (H1 & H2 & H3).
    unfold in_step. cbn [happen passed fst snd].
    rewrite H2, H3. by split_and!.
Qed.

Lemma happen_all_in_step hs st seen :
  Destroyed ∉ hs → in_step st seen →
  in_step (happen_all hs st) (foldl passed seen hs).
Proof.
  revert st seen. induction hs as [|h hs IH]; intros st seen Hd Hst; [done|].
  apply not_elem_of_cons in Hd as [Hh Hd].
  cbn. apply IH; [done|]. apply happen_in_step; [congruence|done].
Qed.


End RxPush.

(* ===================================================================== *)
(** ** Properties of the actions utility *)
(* ===================================================================== *)

Import Actions.

Lemma transforms_apply o a : transforms (apply o a) = transforms a.
Proof.
  destruct o as [key v|key b|h]; cbn; [|done|done].
  unfold dispatch. by destruct (deliver_all _ _ _ _).
Qed.

Lemma transformed_apply o a key v :
  transformed (apply o a) key v = transformed a key v.
Proof. unfold transformed. by rewrite transforms_apply. Qed.

Lemma stream_dispatch k v a key :
  stream (dispatch k v a) key =
  stream a key ++ (if String.eqb k key then [transformed a key v] else []).
Proof.
  unfold dispatch. destruct (deliver_all _ _ _ _) as [bs es].
  unfold stream at 1. cbn [streams].
  destruct (String.eqb_spec k key) as [->|Hne].
  - by rewrite lookup_insert_eq.
  - rewrite lookup_insert_ne by done. fold (stream a key). by rewrite app_nil_r.
Qed.

Lemma stream_apply_all ops a key :
  stream (apply_all ops a) key =
  stream a key ++ (transformed a key <$> dispatched key ops).
Proof.
  revert a. induction ops as [|o ops IH]; intros a.
  { cbn. by rewrite app_nil_r. }
  unfold apply_all in *. cbn [foldl]. rewrite IH.
  destruct o as [k v|k b|h]; cbn [apply dispatched flat_map].
  - rewrite stream_dispatch, <- app_assoc. f_equal.
    rewrite fmap_app. f_equal.
    + by destruct (String.eqb k key).
    + apply list_fmap_ext. intros _ x _.
      apply (transformed_apply (Dispatch k v)).
  - done.
  - done.
Qed.

Lemma api_members keys key :
  key ∈ keys →
  (key, Dispatcher key) ∈ api keys ∧
  (key +:+ "$", Stream key) ∈ api keys ∧
  ("on" +:+ capitalize key, OnBinder key) ∈ api keys.
Proof.
  intros Hk. unfold api.
  assert (∀ m, m ∈ members_of key → m ∈ flat_map members_of keys) as Hm.
  { intros m Hin. apply list_elem_of_In, in_flat_map. exists key.
    by rewrite <- !list_elem_of_In. }
  split_and!; apply Hm; unfold members_of; rewrite !elem_of_cons; eauto.
Qed.

(** C6, as amended.  [rxActions] turns every key [K] of the action
    interface into a dispatcher [K], a stream [K$] and a binder [onK].  The
    stream of [K] emits, for each value dispatched on [K] and in the order
    of dispatch, that value after the transform configured for [K]; where
    no transform is configured for [K], it emits exactly the values
    dispatched on it. *)
Theorem C6_streams_emit_transformed_values
    (t : gmap string (JsValue → JsValue)) (keys : list string) :
  (∀ key, key ∈ keys →
     (key, Dispatcher key) ∈ api keys ∧
     (key +:+ "$", Stream key) ∈ api keys ∧
     ("on" +:+ capitalize key, OnBinder key) ∈ api keys) ∧
  (∀ ops key,
     stream (apply_all ops (rxActions t)) key =
     transformed (rxActions t) key <$> dispatched key ops) ∧
  (∀ ops key, t !! key = None →
     stream (apply_all ops (rxActions t)) key = dispatched key ops).
Proof.
  split_and!.
  - apply api_members.
  - intros ops key. by rewrite stream_apply_all.
  - intros ops key Hnone. rewrite stream_apply_all. cbn.
    unfold transformed. cbn [transforms rxActions]. rewrite Hnone.
    unfold stream. cbn. by rewrite list_fmap_id.
Qed.

(** C6 as stated fails where a transform is configured: with the
    documentation's [greet] transform, dispatching ["me"] on [greet] makes
    [greet$] emit ["Hello me"]. *)
Lemma C6_counterexample :
  stream (apply_all [Dispatch "greet" (JString "me")]
            (rxActions {[ "greet" := greet ]})) "greet"
  = [JString "Hello me"] ∧
  stream (apply_all [Dispatch "greet" (JString "me")]
            (rxActions {[ "greet" := greet ]})) "greet"
  ≠ dispatched "greet" [Dispatch "greet" (JString "me")].
Proof. split; [by vm_compute|]. vm_compute. discriminate. Qed.
(** *** Stopping a side effect *)

Lemma deliver_stopped key v i b :
  stopped b = true → deliver key v i b = (b, []).
Proof. intros H. unfold deliver. by rewrite H. Qed.

Lemma deliver_all_lookup key v i bs j :
  (deliver_all key v i bs).1 !! j =
  (λ b, (deliver key v (i + j) b).1) <$> bs !! j.
Proof.
  revert i j. induction bs as [|b bs IH]; intros i j; cbn [deliver_all]; [done|].
  destruct (deliver key v i b) as [b' e] eqn:Hb.
  destruct (deliver_all key v (S i) bs) as [bs' es] eqn:Hbs.
  cbn [fst]. destruct j as [|j].
  - cbn. by rewrite Nat.add_0_r, Hb.
  - specialize (IH (S i) j). rewrite Hbs in IH. cbn [fst] in IH.
    change ((b' :: bs') !! S j) with (bs' !! j).
    change ((b :: bs) !! S j) with (bs !! j).
    rewrite IH. by replace (S i + j) with (i + S j) by lia.
Qed.

Lemma deliver_all_executions key v i bs h :
  flat_map (λ e : nat * JsValue, if Nat.eqb e.1 h then [e.2] else [])
    (deliver_all key v i bs).2 =
  if decide (i ≤ h)
  then from_option (λ b, map snd (deliver key v h b).2) [] (bs !! (h - i))
  else [].
Proof.
  revert i. induction bs as [|b bs IH]; intros i; cbn [deliver_all].
  { cbn. by destruct (decide _). }
  destruct (deliver key v i b) as [b' e] eqn:Hb.
  destruct (deliver_all key v (S i) bs) as [bs' es] eqn:Hbs.
  specialize (IH (S i)). rewrite Hbs in IH. cbn [snd] in IH |- *.
  rewrite flat_map_app, IH.
  assert (flat_map (λ e : nat * JsValue, if Nat.eqb e.1 h then [e.2] else []) e =
          if Nat.eqb i h then map snd e else []) as ->.
  { unfold deliver in Hb.
    destruct (stopped b || negb (String.eqb (bound_key b) key)).
    - injection Hb as <- <-. by destruct (Nat.eqb i h).
    - injection Hb as <- <-. generalize (bound_behaviour b (received b ++ [v])).
      intros l. induction l as [|x l IHl]; cbn; [by destruct (Nat.eqb i h)|].
      rewrite IHl. by destruct (Nat.eqb i h). }
  destruct (Nat.eqb_spec i h) as [->|Hne].
  - rewrite Nat.sub_diag. cbn. rewrite Hb. cbn.
    destruct (decide (S h ≤ h)); [lia|]. destruct (decide (h ≤ h)); [|lia].
    by rewrite app_nil_r.
  - destruct (decide (i ≤ h)) as [Hle|Hgt].
    + destruct (decide (S i ≤ h)); [|lia].
      replace (h - i) with (S (h - S i)) by lia. done.
    + by destruct (decide (S i ≤ h)); [lia|].
Qed.

Lemma stopped_at_apply h o a : stopped_at h a → stopped_at h (apply o a).
Proof.
  intros (b & Hb & Hs). destruct o as [key v|key behaviour|h']; cbn.
  - unfold dispatch.
    pose proof (deliver_all_lookup key (transformed a key v) 0 (bindings a) h) as Hl.
    destruct (deliver_all _ _ _ _) as [bs es]. cbn [fst] in Hl.
    exists b. cbn [bindings]. rewrite Hl, Hb. cbn. by rewrite deliver_stopped.
  - exists b. split; [|done]. apply lookup_app_l_Some. done.
  - destruct (decide (h = h')) as [<-|Hne].
    + exists (stop b). split; [|done]. unfold cleanup. cbn [bindings].
      by rewrite list_lookup_alter_eq, Hb.
    + exists b. split; [|done]. unfold cleanup. cbn [bindings].
      by rewrite list_lookup_alter_ne.
Qed.

Lemma executions_apply_stopped h o a :
  stopped_at h a → executions h (apply o a) = executions h a.
Proof.
  intros (b & Hb & Hs). destruct o as [key v|key behaviour|h']; cbn; [|done|done].
  unfold dispatch, executions.
  pose proof (deliver_all_executions key (transformed a key v) 0 (bindings a) h) as He.
  destruct (deliver_all _ _ _ _) as [bs es]. cbn [snd executed] in He |- *.
  rewrite flat_map_app, He, decide_True, Nat.sub_0_r, Hb by lia. cbn.
  rewrite deliver_stopped by done. cbn. by rewrite app_nil_r.
Qed.

Lemma executions_apply_all_stopped h ops a :
  stopped_at h a → executions h (apply_all ops a) = executions h a.
Proof.
  revert a. induction ops as [|o ops IH]; intros a Ha; [done|].
  unfold apply_all in *. cbn [foldl].
  rewrite IH by by apply stopped_at_apply.
  by apply executions_apply_stopped.
Qed.

Lemma bindings_length_apply o a :
  length (bindings a) ≤ length (bindings (apply o a)).
Proof.
  destruct o as [key v|key behaviour|h']; cbn.
  - unfold dispatch.
    assert (∀ i bs, length (deliver_all key (transformed a key v) i bs).1 = length bs)
      as Hlen.
    { intros i bs. revert i. induction bs as [|b bs IH]; intros i; cbn; [done|].
      destruct (deliver _ _ _ _). specialize (IH (S i)).
      destruct (deliver_all _ _ _ _). cbn in *. by rewrite IH. }
    specialize (Hlen 0 (bindings a)).
    destruct (deliver_all _ _ _ _). cbn in *. lia.
  - rewrite length_app. lia.
  - unfold cleanup. cbn. by rewrite length_alter.
Qed.

Lemma bindings_length_apply_all ops a :
  length (bindings a) ≤ length (bindings (apply_all ops a)).
Proof.
  revert a. induction ops as [|o ops IH]; intros a; [done|].
  unfold apply_all in *. cbn [foldl].
  etrans; [apply (bindings_length_apply o)|apply IH].
Qed.
(** C7.  A side effect bound with the [on] shorthand of an action runs on
    every dispatch of the action, on what its behaviour makes of the
    dispatched value; the binder returns a cleanup function, and once that
    function has been called, whatever is dispatched, bound or cleaned up
    afterwards, the side effect is not executed again. *)
Theorem C7_cleanup_stops_the_side_effect
    (key : string) (behaviour : Behaviour) (a : RxActions) :
  let a1 := (on key behaviour a).1 in
  let h := (on key behaviour a).2 in
  (∀ v, executions h (dispatch key v a1) =
        executions h a1 ++ behaviour [transformed a key v]) ∧
  (∀ before after,
     executions h (apply_all (before ++ Cleanup h :: after) a1) =
     executions h (apply_all before a1)).
Proof.
  cbn zeta. cbn [on fst snd]. split.
  - intros v. unfold dispatch, executions.
    match goal with |- context [deliver_all ?k ?w 0 ?bs] =>
      pose proof (deliver_all_executions k w 0 bs (length (bindings a))) as He;
      destruct (deliver_all k w 0 bs) as [bs' es] end.
    cbn [snd executed bindings] in He |- *.
    rewrite flat_map_app, He. f_equal.
    destruct (decide (0 ≤ length (bindings a))); [|lia].
    rewrite Nat.sub_0_r, list_lookup_middle by done. cbn.
    unfold deliver. cbn. rewrite String.eqb_refl. cbn.
    unfold transformed. cbn [transforms].
    generalize (behaviour [match transforms a !! key with
                           | Some f => f v | None => v end]).
    intros outs. induction outs as [|x outs IH]; [done|]. cbn. by rewrite IH.
  - intros before after. unfold apply_all. rewrite foldl_app. cbn [foldl apply].
    fold (apply_all before
            (mkActions (transforms a) (streams a)
               (bindings a ++ [mkBinding key behaviour [] false]) (executed a))).
    set (x := apply_all before _).
    fold (apply_all after (cleanup (length (bindings a)) x)).
    rewrite executions_apply_all_stopped; [done|].
    assert (length (bindings a) < length (bindings x)) as Hlt.
    { eapply Nat.lt_le_trans; [|apply bindings_length_apply_all].
      cbn. rewrite length_app. cbn. lia. }
    destruct (lookup_lt_is_Some_2 _ _ Hlt) as [b Hb].
    exists (stop b). split; [|done]. unfold cleanup. cbn [bindings].
    by rewrite list_lookup_alter_eq, Hb.
Qed.

(* ===================================================================== *)
(** ** The statements at work on the example environment *)
(* ===================================================================== *)

Local Abbreviation xtransform :=
  (transform example_provider example_cdRef example_zone example_after_next).
Local Abbreviation xstep :=
  (step example_provider example_cdRef example_zone example_after_next).
Local Abbreviation xrun :=
  (run example_provider example_cdRef example_zone example_after_next).
Local Abbreviation xcreate := (create (Some example_normal)).
Local Abbreviation xcall :=
  (call_transform example_provider example_cdRef example_zone
     example_after_next).
Local Abbreviation xhappen_all :=
  (happen_all example_provider example_cdRef example_zone example_after_next).



(** A [PushInput] with a strategy and a callback, then a strategy name. *)
Lemma C2_witness :
  _renderCallback
    (state_of (xtransform (JRef 1)
                 (JObject [("strategy", JString "immediate");
                           ("renderCallback", JRef 9)])
                 JUndefined [] xcreate)) = JRef 9 ∧
  strategy_latest
    (state_of (xtransform (JRef 1) (JString "immediate") (JRef 3) [] xcreate))
  = Some (mkStrategy "immediate").
Proof.
  split.
  - refine (proj1 (proj2 (proj2 (proj1
      (C2_config_selects_strategy example_provider example_cdRef example_zone
         example_after_next (JRef 1)
         (JObject [("strategy", JString "immediate"); ("renderCallback", JRef 9)])
         JUndefined [] xcreate) _)))).
    split; [reflexivity|left; reflexivity].
  - refine (proj1 (proj2 (proj2
      (C2_config_selects_strategy example_provider example_cdRef example_zone
         example_after_next (JRef 1) (JString "immediate") (JRef 3) [] xcreate)
      _))).
    split; reflexivity.
Defined.

(** The strategy work run after a first call, an emission and the
    provider's turn was scheduled before; an emission runs no work. *)
Lemma C3_witness :
  Forall (λ x, is_work x = false)
    (effects_of (xstep (Emission (next_of 5)) xcreate)) ∧
  ∃ j work options,
    j < 3 ∧
    effects_of (xrun [first_call; Emission (next_of 5); ScheduledRun 0] xcreate)
      !! j = Some (Schedule 0 work options) ∧
    work_strategy work = example_normal ∧ work_cdRef work = example_cdRef ∧
    example_cdRef = example_cdRef ∧
    opt_strategy options = name example_normal ∧
    opt_scope options = JRef 0.
Proof.
  split.
  - apply (proj1 (C3_work_runs_only_when_scheduled example_provider
                    example_cdRef example_zone (Some example_normal)
                    example_after_next)).
    intros id. discriminate.
  - apply (proj2 (C3_work_runs_only_when_scheduled example_provider
                    example_cdRef example_zone (Some example_normal)
                    example_after_next)).
    reflexivity.
Defined.

(** [patchZone: null] falls back to the provider, [patchZone: false] does
    not; the pass scheduled for an emission carries the field. *)
Lemma C4_witness :
  patchZone
    (state_of (xtransform (JRef 1) (JObject [("patchZone", JNull)])
                 JUndefined [] xcreate)) = PatchZoneOf example_zone ∧
  patchZone
    (state_of (xtransform (JRef 1) (JObject [("patchZone", JBool false)])
                 JUndefined [] xcreate)) = PatchZoneFalse ∧
  opt_patchZone (mkOptions (JRef 0) "normal" PatchZoneUnset) =
  patchZone
    (state_of (xstep (Emission (next_of 5))
                 (state_of (xstep first_call xcreate)))).
Proof.
  split_and!.
  - refine (proj1
      (proj1 (C4_patch_zone_fallback example_provider example_cdRef
                example_zone example_after_next)
         (JRef 1) (JObject [("patchZone", JNull)]) JUndefined [] xcreate _) _);
      reflexivity.
  - refine (proj2
      (proj1 (C4_patch_zone_fallback example_provider example_cdRef
                example_zone example_after_next)
         (JRef 1) (JObject [("patchZone", JBool false)]) JUndefined [] xcreate _)
      _); reflexivity.
  - refine (proj2 (C4_patch_zone_fallback example_provider example_cdRef
                     example_zone example_after_next)
              (Emission (next_of 5)) (state_of (xstep first_call xcreate))
              0 (mkWork example_normal example_cdRef (JRef 0) (JNumber 5))
              (mkOptions (JRef 0) "normal" PatchZoneUnset) _).
    vm_compute. apply list_elem_of_here.
Defined.

(** One key, no transform. *)
Lemma C6_witness :
  ("login$", Stream "login") ∈ api ["login"] ∧
  stream (apply_all [Dispatch "login" (JString "me")] (rxActions ∅)) "login"
  = dispatched "login" [Dispatch "login" (JString "me")].
Proof.
  split.
  - refine (proj1 (proj2 (proj1
      (C6_streams_emit_transformed_values ∅ ["login"]) "login" _))).
    apply list_elem_of_here.
  - refine (proj2 (proj2 (C6_streams_emit_transformed_values ∅ ["login"]))
              [Dispatch "login" (JString "me")] "login" _).
    reflexivity.
Defined.

(** An [Error] notification on a new pipe. *)
Lemma C8_witness :
  xstep (Emission (mkNotification Error JNull)) xcreate = (tt, xcreate, []).
Proof.
  refine (proj1 (C8_only_values_reach_the_pipe example_provider example_cdRef
                   example_zone example_after_next xcreate
                   (mkNotification Error JNull) _)).
  left. reflexivity.
Defined.

(** The emission of 5 after a first call is rendered and scheduled. *)
Lemma C9_witness :
  renderedValue
    (state_of (xstep (Emission (next_of 5)) (state_of (xrun [first_call] xcreate))))
  = JNumber 5.
Proof.
  refine (proj1 (proj2 (proj2 (proj2
    (C9_initial_value_is_not_scheduled example_provider example_cdRef
       example_zone (Some example_normal) example_after_next)))
    [first_call] (next_of 5) example_normal _ _ _)); reflexivity.
Defined.

(** A second call keeps the subscription; after [ngOnDestroy] it is closed
    and stays closed. *)
Lemma C10_witness :
  subscription
    (state_of (xtransform (JRef 1) JUndefined JUndefined []
                 (state_of (xrun [first_call] xcreate))))
  = Some (mkSubscription false) ∧
  subscription
    (state_of (xrun [Emission (next_of 5)]
                 (state_of (ngOnDestroy (state_of (xrun [first_call] xcreate))))))
  = Some (mkSubscription true).
Proof.
  split.
  - refine (proj1 (proj1 (proj2 (proj2
      (C10_subscription_created_once example_provider example_cdRef
         example_zone (Some example_normal) example_after_next)))
      [first_call] (mkSubscription false) (JRef 1) JUndefined JUndefined [] _)).
    reflexivity.
  - refine (proj1 (proj2 (proj2 (proj2 (proj2 (proj2
      (C10_subscription_created_once example_provider example_cdRef
         example_zone (Some example_normal) example_after_next)))
      [first_call] (mkSubscription false) [Emission (next_of 5)] _)))).
    reflexivity.
Defined.

(** *** Three executions *)

(** A first call on an input that emits 1 at once: 1 is returned and no
    pass is scheduled. *)
Example initial_value_is_returned :
  result_of (xtransform (JRef 1) JUndefined JUndefined [next_of 1] xcreate)
  = JNumber 1 ∧
  effects_of (xtransform (JRef 1) JUndefined JUndefined [next_of 1] xcreate)
  = [TemplateObserverNext (JRef 1); ValuesSubscribe].
Proof. split; reflexivity. Qed.

(** A later emission is scheduled with the strategy in force, and the
    provider's turn runs that strategy's work. *)
Example later_value_is_scheduled :
  effects_of (xrun [first_call; Emission (next_of 5); ScheduledRun 0] xcreate)
  = [TemplateObserverNext (JRef 1); ValuesSubscribe;
     Schedule 0 (mkWork example_normal example_cdRef (JRef 0) (JNumber 5))
       (mkOptions (JRef 0) "normal" PatchZoneUnset);
     StrategyWork 0 example_normal example_cdRef (JRef 0)].
Proof. reflexivity. Qed.

(** A pipe turns from an Observable that has emitted 5 to one that has not
    emitted: [undefined] is returned, until the new one emits. *)
Example new_input_starts_undefined :
  let hs := [Call (JRef 1) JUndefined JUndefined [];
             InputEmits (JRef 1) (JNumber 5)] in
  (xcall (JRef 2) JUndefined JUndefined []
     (xhappen_all hs (xcreate, notifier_create))).1 = JUndefined ∧
  (xcall (JRef 2) JUndefined JUndefined []
     (xhappen_all (hs ++ [Call (JRef 2) JUndefined JUndefined [];
                          InputEmits (JRef 1) (JNumber 6);
                          InputEmits (JRef 2) (JNumber 8)])
        (xcreate, notifier_create))).1 = JNumber 8.
Proof. by vm_compute. Qed.

(** Destroying a pipe with scheduled work pending: [values$] first, then
    the scheduled work. *)
Example destroy_unsubscribes_in_order :
  effects_of (xstep Destroy
                (state_of (xrun [first_call; Emission (next_of 5)] xcreate)))
  = [ValuesUnsubscribe; ScheduleUnsubscribe 0].
Proof. reflexivity. Qed.

(** The [refresh] effect of the documentation's movie service, with a
    behaviour that passes each value on: it runs for the first dispatch and,
    once disabled, not for the second. *)
Example disabled_effect_is_not_run :
  let a := on "refresh" (λ seen, option_list (last seen)) (rxActions ∅) in
  executions a.2
    (apply_all [Dispatch "refresh" (JNumber 1); Cleanup a.2;
                Dispatch "refresh" (JNumber 2)] a.1)
  = [JNumber 1].
Proof. by vm_compute. Qed.

(** *** The further statements on the example environment *)

(** A call with [null] for [config] and a callback as third argument. *)
Lemma X1_witness :
  _renderCallback (state_of (xtransform (JRef 1) JNull (JRef 3) [] xcreate))
  = JRef 3.
Proof.
  refine (proj2 (proj2 (proj2
    (X1_falsy_config_changes_nothing example_provider example_cdRef example_zone
       example_after_next (JRef 1) JNull (JRef 3) [] xcreate _)))).
  reflexivity.
Defined.

(** An emission on a subscribed pipe whose strategy handler holds no
    strategy. *)
Lemma X6_witness :
  effects_of (xstep (Emission (next_of 5))
                (state_of (xrun [first_call] (create None)))) = [].
Proof.
  refine (proj2
    (X6_no_strategy_no_schedule example_provider example_cdRef example_zone
       None example_after_next [first_call] (next_of 5) _ _ _));
    reflexivity.
Defined.

(** Two emissions in a row: the provider's turn for the first does
    nothing. *)
Lemma X7_witness :
  xstep (ScheduledRun 0)
    (state_of (xrun [Emission (next_of 1); Emission (next_of 2)]
                 (state_of (xrun [first_call] xcreate))))
  = (tt,
     state_of (xrun [Emission (next_of 1); Emission (next_of 2)]
                 (state_of (xrun [first_call] xcreate))),
     []).
Proof.
  refine (proj2 (proj2
    (X7_only_latest_work_is_pending example_provider example_cdRef example_zone
       (Some example_normal) example_after_next [first_call]
       [next_of 1; next_of 2] (next_of 2) example_normal _ _ _ _)) 0 _).
  - reflexivity.
  - reflexivity.
  - repeat constructor.
  - reflexivity.
  - cbn. lia.
Defined.

(** An emission under [normal], then a call switching to [immediate] with
    a callback: the work of [normal] runs and the new callback is told. *)
Lemma X8_witness :
  effects_of
    (xstep (ScheduledRun 0)
       (state_of (xtransform (JRef 1) (JString "immediate") (JRef 3) []
                    (state_of (xstep (Emission (next_of 5))
                                 (state_of (xrun [first_call] xcreate)))))))
  = [StrategyWork 0 example_normal example_cdRef (JRef 0);
     RenderCallbackNext (JRef 3) (JNumber 5)].
Proof.
  refine (X8_strategy_then_callback example_provider example_cdRef example_zone
            (Some example_normal) example_after_next [first_call] (next_of 5)
            example_normal (JRef 1) (JString "immediate") (JRef 3) _ _ _);
    reflexivity.
Defined.

(** A call that names [immediate] and delivers 5 schedules it with
    [immediate]. *)
Lemma X9_witness :
  List.filter is_schedule
    (effects_of (xtransform (JRef 1) (JString "immediate") JUndefined [next_of 5]
                   (state_of (xrun [first_call] xcreate))))
  = [Schedule 0
       (mkWork (mkStrategy "immediate") example_cdRef (JRef 0) (JNumber 5))
       (mkOptions (JRef 0) "immediate" PatchZoneUnset)].
Proof.
  refine (X9_config_applies_within_the_call example_provider example_cdRef
            example_zone (Some example_normal) example_after_next [first_call]
            (JRef 1) (JString "immediate") JUndefined (next_of 5)
            (mkStrategy "immediate") _ _ _);
    reflexivity.
Defined.

(** [ngOnDestroy] on a new pipe, then a first call. *)
Lemma X11_witness :
  subscription
    (state_of (xtransform (JRef 1) JUndefined JUndefined []
                 (state_of (ngOnDestroy (state_of (xrun [] xcreate))))))
  = Some (mkSubscription false).
Proof.
  refine (proj2 (proj2
    (X11_destroy_is_idempotent example_provider example_cdRef example_zone
       (Some example_normal) example_after_next []) _)
    (JRef 1) JUndefined JUndefined []).
  reflexivity.
Defined.

(** The probe on a subscribed pipe that has buffered nothing, and on a new
    pipe whose input emits 1 at once. *)
Lemma X13_witness :
  result_of
    (hasInitialValue (templateValues_subscribe [])
       templateValues_unsubscribe (state_of (xrun [first_call] xcreate)))
  = [Rx.OnNext false; Rx.OnComplete] ∧
  effects_of
    (hasInitialValue (templateValues_subscribe [next_of 1])
       templateValues_unsubscribe xcreate)
  = [ValuesSubscribe; ValuesUnsubscribe].
Proof.
  split.
  - rewrite (proj1 (X13_probe_needs_a_subscriber []
                      (state_of (xrun [first_call] xcreate))) 1);
      reflexivity.
  - refine (proj1 (proj2 (proj2 (X13_probe_needs_a_subscriber [next_of 1] xcreate) _))).
    reflexivity.
Defined.

(** A callback given as third argument is told the value scheduled. *)
Lemma X14_witness :
  ∃ id strategy j work options,
    effects_of (xrun [Transform (JRef 1) JUndefined (JRef 3) [];
                      Emission (next_of 5); ScheduledRun 0] xcreate) !! (4 - 1) =
      Some (StrategyWork id strategy example_cdRef (opt_scope options)) ∧
    0 < 4 ∧ j < 4 - 1 ∧
    effects_of (xrun [Transform (JRef 1) JUndefined (JRef 3) [];
                      Emission (next_of 5); ScheduledRun 0] xcreate) !! j =
      Some (Schedule id work options) ∧
    work_strategy work = strategy ∧ work_result work = JNumber 5.
Proof.
  refine (proj2
    (X14_callback_follows_scheduled_work example_provider example_cdRef
       example_zone (Some example_normal) example_after_next
       [Transform (JRef 1) JUndefined (JRef 3) [];
        Emission (next_of 5); ScheduledRun 0] 4 (JRef 3) (JNumber 5) _)).
  reflexivity.
Defined.
